(** * fastapi-elasticsearch: document indexing and retrieval service

    A shallow embedding of [src/main.py] and the properties of its
    embedding provider, document lifecycle and search endpoints.

    Conventions of the embedding:
    - a Python [int] is a [Z]; [//] is [Z.div] and [%] is [Z.modulo]
      (both floor, as in Python, for the positive divisors used here);
    - a Python [bytes] value is a [list Z] of values in [0, 256);
    - a Python [str] is a Rocq [string], read as its UTF-8 encoding, so
      that [text.encode("utf-8")] is the list of its byte values;
    - a Python [float] that the code computes is the exact rational it
      denotes before binary64 rounding (type [Q]); the only float
      operation of the code is one division of two integers;
    - a [dict] used as a map is a [gmap]; JSON-like metadata is the
      inductive type [json];
    - the Elasticsearch server, the OpenAI service and the uuid generator
      are the environment: they live in the [World] the endpoints
      thread through, and every call to them is recorded. *)

From Stdlib Require Import ZArith QArith List Bool Lia Sorted.
From stdpp Require Import base tactics option list strings gmap.
Import ListNotations.

Local Open Scope Z_scope.

(** ** hashlib.sha256 (FIPS 180-4), on byte lists *)

Module SHA256.

Definition w32 (x : Z) : Z := x mod 2 ^ 32.
Definition add32 (x y : Z) : Z := w32 (x + y).
Definition rotr (n x : Z) : Z :=
  Z.lor (Z.shiftr x n) (w32 (Z.shiftl x (32 - n))).
Definition not32 (x : Z) : Z := w32 (Z.lnot x).

Definition Ch (x y z : Z) : Z := Z.lxor (Z.land x y) (Z.land (not32 x) z).
Definition Maj (x y z : Z) : Z :=
  Z.lxor (Z.lxor (Z.land x y) (Z.land x z)) (Z.land y z).
Definition bsig0 (x : Z) : Z := Z.lxor (Z.lxor (rotr 2 x) (rotr 13 x)) (rotr 22 x).
Definition bsig1 (x : Z) : Z := Z.lxor (Z.lxor (rotr 6 x) (rotr 11 x)) (rotr 25 x).
Definition ssig0 (x : Z) : Z := Z.lxor (Z.lxor (rotr 7 x) (rotr 18 x)) (Z.shiftr x 3).
Definition ssig1 (x : Z) : Z := Z.lxor (Z.lxor (rotr 17 x) (rotr 19 x)) (Z.shiftr x 10).

(** The first 64 primes. *)
Definition is_prime (n : Z) : bool :=
  (1 <? n) &&
  forallb (fun d => negb (n mod d =? 0))
          (map Z.of_nat (seq 2 (Z.to_nat n - 2))).

Definition primes64 : list Z :=
  Eval vm_compute in filter is_prime (map Z.of_nat (seq 0 312)).

(** The integer cube root, bit by bit from [2 ^ bits] down. *)
Fixpoint cbrt_bits (bits : nat) (n r : Z) : Z :=
  match bits with
  | O => r
  | S b =>
      let r' := r + 2 ^ Z.of_nat b in
      cbrt_bits b n (if r' * r' * r' <=? n then r' else r)
  end.

(** The round constants: the first 32 bits of the fractional parts of the
    cube roots of the first 64 primes. *)
Definition K : list Z :=
  Eval vm_compute in
    map (fun p => w32 (cbrt_bits 40 (p * 2 ^ 96) 0)) primes64.

(** The eight working words a..h. *)
Record state := State {
  ha : Z; hb : Z; hc : Z; hd : Z; he : Z; hf : Z; hg : Z; hh : Z }.

(** The initial hash value: the first 32 bits of the fractional parts of
    the square roots of the first 8 primes. *)
Definition frac_sqrt (p : Z) : Z := w32 (Z.sqrt (p * 2 ^ 64)).

Definition H0 : state :=
  Eval vm_compute in
    State (frac_sqrt 2) (frac_sqrt 3) (frac_sqrt 5) (frac_sqrt 7)
          (frac_sqrt 11) (frac_sqrt 13) (frac_sqrt 17) (frac_sqrt 19).

(** Big-endian encodings. *)
Definition be4 (x : Z) : list Z :=
  [ Z.land (Z.shiftr x 24) 255; Z.land (Z.shiftr x 16) 255;
    Z.land (Z.shiftr x 8) 255; Z.land x 255 ].
Definition be8 (x : Z) : list Z := be4 (Z.shiftr x 32) ++ be4 (w32 x).

Definition word_of (b0 b1 b2 b3 : Z) : Z :=
  Z.lor (Z.lor (Z.shiftl b0 24) (Z.shiftl b1 16)) (Z.lor (Z.shiftl b2 8) b3).

Fixpoint words (n : nat) (l : list Z) : list Z :=
  match n, l with
  | S n', b0 :: b1 :: b2 :: b3 :: r => word_of b0 b1 b2 b3 :: words n' r
  | _, _ => []
  end.

(** Padding: the byte 0x80, zeros up to 56 mod 64, the bit length. *)
Definition pad (msg : list Z) : list Z :=
  let len := Z.of_nat (length msg) in
  msg ++ [128] ++ repeat 0 (Z.to_nat ((55 - len) mod 64)) ++ be8 (8 * len).

(** Message schedule: [n] more words appended to [w]. *)
Fixpoint schedule (n : nat) (w : list Z) : list Z :=
  match n with
  | O => w
  | S n' =>
      let t := length w in
      let g (k : nat) := nth (t - k) w 0 in
      schedule n' (w ++ [add32 (add32 (ssig1 (g 2%nat)) (g 7%nat))
                               (add32 (ssig0 (g 15%nat)) (g 16%nat))])
  end.

Definition round (s : state) (kw : Z * Z) : state :=
  let '(k, w) := kw in
  let t1 := add32 (add32 (add32 (hh s) (bsig1 (he s)))
                         (add32 (Ch (he s) (hf s) (hg s)) k)) w in
  let t2 := add32 (bsig0 (ha s)) (Maj (ha s) (hb s) (hc s)) in
  State (add32 t1 t2) (ha s) (hb s) (hc s) (add32 (hd s) t1) (he s) (hf s) (hg s).

Definition compress (s : state) (block : list Z) : state :=
  let w := schedule 48 (words 16 block) in
  let r := fold_left round (combine K w) s in
  State (add32 (ha s) (ha r)) (add32 (hb s) (hb r)) (add32 (hc s) (hc r))
        (add32 (hd s) (hd r)) (add32 (he s) (he r)) (add32 (hf s) (hf r))
        (add32 (hg s) (hg r)) (add32 (hh s) (hh r)).

Fixpoint blocks (n : nat) (s : state) (l : list Z) : state :=
  match n with
  | O => s
  | S n' => blocks n' (compress s (firstn 64 l)) (skipn 64 l)
  end.

Definition output (s : state) : list Z :=
  be4 (ha s) ++ be4 (hb s) ++ be4 (hc s) ++ be4 (hd s) ++
  be4 (he s) ++ be4 (hf s) ++ be4 (hg s) ++ be4 (hh s).

(** [hashlib.sha256(msg).digest()] *)
Definition digest (msg : list Z) : list Z :=
  let p := pad msg in
  output (blocks (length p / 64)%nat H0 p).

End SHA256.

(** [text.encode("utf-8")]: the bytes of the text. *)
Fixpoint encode_utf8 (text : string) : list Z :=
  match text with
  | EmptyString => []
  | String c rest => Z.of_nat (Ascii.nat_of_ascii c) :: encode_utf8 rest
  end.

(** ** Data model *)

(** A Python float, as the rational it denotes. *)
Definition float : Type := Q.

(** JSON-like values ([Any] in the request models). A [dict] nested in a
    value keeps its items in insertion order. *)
Inductive json : Type :=
| JNull
| JBool (b : bool)
| JInt (n : Z)
| JFloat (x : float)
| JStr (s : string)
| JList (l : list json)
| JObj (o : list (string * json)).

(** [dict[str, Any]] *)
Definition json_obj : Type := list (string * json).

(** The module-level configuration, read once from the environment.
    [EMBEDDING_PROVIDER] is the value after [.strip().lower()],
    [OPENAI_API_KEY] the value after [.strip()] (empty when unset). *)
Record Config := {
  ELASTIC_URL : string;
  INDEX_NAME : string;
  EMBEDDING_PROVIDER : string;
  EMBEDDING_DIM : Z;
  OPENAI_API_KEY : string;
  OPENAI_EMBED_MODEL : string
}.

(** The [_source] of a stored document. The code reads ["text"] by
    subscript and ["meta"] by [.get("meta", {})], so the first is
    mandatory and the second optional; ["embedding"] is never read. *)
Record Source := {
  src_text : string;
  src_meta : option json_obj;
  src_embedding : list float
}.

(** Request bodies (pydantic models). *)
Record IngestRequest := {
  frases : list string;
  ingest_metadatos : option json_obj
}.

Record SearchRequest := {
  query : string;
  top_k : Z
}.

Record UpdateRequest := {
  text : option string;
  metadatos : option json_obj
}.

(** The index mapping passed to [es.indices.create]. *)
Inductive FieldMapping :=
| FText
| FObject (enabled : bool)
| FDenseVector (dims : Z) (index : bool) (similarity : string).

Definition Mapping : Type := list (string * FieldMapping).

(** The bodies of [es.search]. *)
Inductive Query :=
| QMatch (field : string) (q : string)
| QBoolShould (clauses : list Query).

Record Knn := {
  knn_field : string;
  query_vector : list float;
  knn_k : Z;
  num_candidates : Z
}.

Record SearchBody := {
  sb_size : Z;
  sb_query : option Query;
  sb_knn : option Knn
}.

(** One element of [res["hits"]["hits"]]. *)
Record Hit := {
  hit_id : string;
  hit_source : Source;
  hit_score : float
}.

(** Calls issued to the Elasticsearch client. *)
Inductive EsCall :=
| CPing
| CIndicesExists
| CIndicesCreate (m : Mapping)
| CIndicesRefresh
| CIndex (id : string) (doc : Source)
| CDelete (id : string)
| CGet (id : string)
| CSearch (body : SearchBody).

(** The [detail] of the HTTP errors the service raises. *)
Inductive Detail :=
| MissingApiKey                       (* "Falta OPENAI_API_KEY en el .env" *)
| DimensionDetail (got expected : Z)  (* "Dimension embedding (got) != EMBEDDING_DIM (expected)" *)
| DocumentNotFound.                   (* "Documento no encontrado" *)

(** Exceptions that reach, or are raised by, the service. *)
Inductive exn :=
| HTTPException (status_code : Z) (detail : Detail)
| RuntimeError
| EsConnectionError     (* the server cannot be reached *)
| EsNotFoundError       (* the server answers 404 *)
| EsBadRequestError     (* the server answers 400 *)
| OpenAIError.          (* the embeddings call failed *)

Inductive Result (A : Type) :=
| Ok (a : A)
| Raise (e : exn).
Arguments Ok {A} a.
Arguments Raise {A} e.

(** ** The environment *)

(** The state the endpoints act on: the index [INDEX_NAME] of the
    server, the answers the outside world will give, and the record of
    what was asked.
    - [es_faults]: for each coming call to the server, whether its
      transport fails (a missing entry means it does not);
    - [es_index]: the mapping of the index when it exists;
    - [es_docs]: its documents; [es_visible]: the documents as of the
      last refresh, which is what a search sees;
    - [es_log]: the calls issued so far, oldest first;
    - [uuid_drawn]: how many ids [uuid4()] has produced;
    - [openai_replies]: the coming answers of the embeddings API
      ([None], or no entry: the call fails); [openai_log]: the
      [(model, input)] pairs sent to it. *)
Record World := {
  es_faults : list bool;
  es_index : option Mapping;
  es_docs : gmap string Source;
  es_visible : gmap string Source;
  es_log : list EsCall;
  uuid_drawn : nat;
  openai_replies : list (option (list float));
  openai_log : list (string * string)
}.

Definition set_faults (f : list bool) (w : World) : World :=
  {| es_faults := f; es_index := es_index w; es_docs := es_docs w;
     es_visible := es_visible w; es_log := es_log w;
     uuid_drawn := uuid_drawn w; openai_replies := openai_replies w;
     openai_log := openai_log w |}.

Definition set_index (i : option Mapping) (w : World) : World :=
  {| es_faults := es_faults w; es_index := i; es_docs := es_docs w;
     es_visible := es_visible w; es_log := es_log w;
     uuid_drawn := uuid_drawn w; openai_replies := openai_replies w;
     openai_log := openai_log w |}.

Definition set_docs (d : gmap string Source) (w : World) : World :=
  {| es_faults := es_faults w; es_index := es_index w; es_docs := d;
     es_visible := es_visible w; es_log := es_log w;
     uuid_drawn := uuid_drawn w; openai_replies := openai_replies w;
     openai_log := openai_log w |}.

Definition set_visible (d : gmap string Source) (w : World) : World :=
  {| es_faults := es_faults w; es_index := es_index w; es_docs := es_docs w;
     es_visible := d; es_log := es_log w;
     uuid_drawn := uuid_drawn w; openai_replies := openai_replies w;
     openai_log := openai_log w |}.

Definition set_log (l : list EsCall) (w : World) : World :=
  {| es_faults := es_faults w; es_index := es_index w; es_docs := es_docs w;
     es_visible := es_visible w; es_log := l;
     uuid_drawn := uuid_drawn w; openai_replies := openai_replies w;
     openai_log := openai_log w |}.

Definition set_uuid_drawn (n : nat) (w : World) : World :=
  {| es_faults := es_faults w; es_index := es_index w; es_docs := es_docs w;
     es_visible := es_visible w; es_log := es_log w;
     uuid_drawn := n; openai_replies := openai_replies w;
     openai_log := openai_log w |}.

Definition set_openai (r : list (option (list float)))
    (l : list (string * string)) (w : World) : World :=
  {| es_faults := es_faults w; es_index := es_index w; es_docs := es_docs w;
     es_visible := es_visible w; es_log := es_log w;
     uuid_drawn := uuid_drawn w; openai_replies := r;
     openai_log := l |}.

(** Computations that may raise; the effects made before an exception
    stay in the world. *)
Definition M (A : Type) : Type := World -> Result A * World.

Definition ret {A} (a : A) : M A := fun w => (Ok a, w).
Definition raise {A} (e : exn) : M A := fun w => (Raise e, w).
Definition bind {A B} (m : M A) (k : A -> M B) : M B :=
  fun w => match m w with
           | (Ok a, w') => k a w'
           | (Raise e, w') => (Raise e, w')
           end.
(** [try: m except Exception: h] *)
Definition try_except {A} (m : M A) (h : M A) : M A :=
  fun w => match m w with
           | (Ok a, w') => (Ok a, w')
           | (Raise _, w') => h w'
           end.

Notation "x <- m ;; k" := (bind m (fun x => k))
  (at level 100, m at next level, right associativity).
Notation "m ;;; k" := (bind m (fun _ => k))
  (at level 100, right associativity).

(** ** Python built-ins used by the code *)

(** [h * n] on bytes: [n] copies, none when [n <= 0]. *)
Definition bytes_mul (h : list Z) (n : Z) : list Z :=
  concat (repeat h (Z.to_nat n)).

(** [b[lo:hi]] for [0 <= lo] and [0 <= hi]: both ends are clamped to the
    length, and the slice is empty when [hi <= lo]. *)
Definition bytes_slice (b : list Z) (lo hi : Z) : list Z :=
  firstn (Z.to_nat (hi - lo)) (skipn (Z.to_nat lo) b).

(** [int.from_bytes(chunk, "little", signed=False)] *)
Fixpoint int_from_bytes_little (chunk : list Z) : Z :=
  match chunk with
  | [] => 0
  | b :: r => b + 256 * int_from_bytes_little r
  end.

(** [range(n)] *)
Definition range (n : Z) : list Z := map Z.of_nat (seq 0 (Z.to_nat n)).

(** [x or {}] for an optional dict: [None] and the empty dict are falsy. *)
Definition or_empty (m : option json_obj) : json_obj :=
  match m with
  | Some (kv :: r) => kv :: r
  | _ => []
  end.

(** ** Responses *)

Record HealthResponse := {
  health_ok : bool;
  health_elastic : string;
  health_index : string;
  health_dim : Z;
  health_embedding_provider : string
}.

Record CreateIndexResponse := {
  ci_ok : bool;
  ci_index : string;
  ci_dim : Z
}.

Record IngestResponse := {
  ing_ok : bool;
  inserted_count : Z;
  ids : list string
}.

Record DeleteResponse := {
  del_ok : bool;
  deleted_id : string
}.

Record UpdateResponse := {
  upd_ok : bool;
  upd_id : string;
  upd_text : string
}.

Record SearchResult := {
  res_id : string;
  res_text : string;
  res_meta : json_obj;
  res_score : float
}.

Record SearchResponse := {
  sr_ok : bool;
  sr_type : string;
  results : list SearchResult
}.

(** ** The program *)

Section Service.

(** The configuration of the process. *)
Variable cfg : Config.

(** [uuid4_nth k] is the id the generator gives at its [k]-th draw. *)
Variable uuid4_nth : nat -> string.

(** The ranking of the server: the hits it answers to a search body over
    the documents a search can see. *)
Variable es_rank : gmap string Source -> SearchBody -> list Hit.

(** *** Embeddings *)

Definition fake_embed (text : string) : list float :=
  let h := SHA256.digest (encode_utf8 text) in
  let b := bytes_mul h (EMBEDDING_DIM cfg * 4 / Z.of_nat (length h) + 1) in
  map (fun i =>
         let chunk := bytes_slice b (i * 4) ((i + 1) * 4) in
         let n := int_from_bytes_little chunk in
         Qmake (n mod 100000) 100000)
      (range (EMBEDDING_DIM cfg)).

(** [client.embeddings.create(model=..., input=text)], then
    [resp.data[0].embedding]. *)
Definition openai_embeddings_create (model input : string) : M (list float) :=
  fun w =>
    let w' := set_openai (tail (openai_replies w))
                         (openai_log w ++ [(model, input)]) w in
    match openai_replies w with
    | Some vec :: _ => (Ok vec, w')
    | _ => (Raise OpenAIError, w')
    end.

Definition openai_embed (text : string) : M (list float) :=
  if String.eqb (OPENAI_API_KEY cfg) "" then
    raise (HTTPException 500 MissingApiKey)
  else
    vec <- openai_embeddings_create (OPENAI_EMBED_MODEL cfg) text ;;
    if negb (Z.of_nat (length vec) =? EMBEDDING_DIM cfg) then
      raise (HTTPException 500
               (DimensionDetail (Z.of_nat (length vec)) (EMBEDDING_DIM cfg)))
    else ret vec.

Definition embed (text : string) : M (list float) :=
  if String.eqb (EMBEDDING_PROVIDER cfg) "openai" then openai_embed text
  else ret (fake_embed text).

(** [str(uuid4())] *)
Definition uuid4 : M string :=
  fun w => (Ok (uuid4_nth (uuid_drawn w)), set_uuid_drawn (S (uuid_drawn w)) w).

(** *** The Elasticsearch client *)

(** Every call is recorded and uses up one entry of the fault schedule;
    a faulty call raises and does nothing else. *)
Definition es_call (c : EsCall) : M unit :=
  fun w =>
    let w' := set_faults (tail (es_faults w)) (set_log (es_log w ++ [c]) w) in
    match es_faults w with
    | true :: _ => (Raise EsConnectionError, w')
    | _ => (Ok tt, w')
    end.

(** [es.ping()] answers [False] instead of raising. *)
Definition es_ping : M bool :=
  try_except (es_call CPing ;;; ret true) (ret false).

Definition es_indices_exists : M bool :=
  es_call CIndicesExists ;;;
  fun w => (Ok (bool_decide (is_Some (es_index w))), w).

Definition es_indices_create (m : Mapping) : M unit :=
  es_call (CIndicesCreate m) ;;;
  fun w => match es_index w with
           | Some _ => (Raise EsBadRequestError, w)
           | None => (Ok tt, set_index (Some m) w)
           end.

Definition es_indices_refresh : M unit :=
  es_call CIndicesRefresh ;;;
  fun w => match es_index w with
           | Some _ => (Ok tt, set_visible (es_docs w) w)
           | None => (Raise EsNotFoundError, w)
           end.

(** [es.index(index, id, document)]: create or replace the document; a
    missing index is created by the server, without explicit fields. *)
Definition es_index_doc (id : string) (doc : Source) : M unit :=
  es_call (CIndex id doc) ;;;
  fun w =>
    let w1 := match es_index w with
              | Some _ => w
              | None => set_index (Some []) w
              end in
    (Ok tt, set_docs (<[id := doc]> (es_docs w1)) w1).

Definition es_delete (id : string) : M unit :=
  es_call (CDelete id) ;;;
  fun w => match es_index w, es_docs w !! id with
           | Some _, Some _ => (Ok tt, set_docs (delete id (es_docs w)) w)
           | _, _ => (Raise EsNotFoundError, w)
           end.

(** [es.get(index, id)["_source"]] *)
Definition es_get (id : string) : M Source :=
  es_call (CGet id) ;;;
  fun w => match es_index w, es_docs w !! id with
           | Some _, Some src => (Ok src, w)
           | _, _ => (Raise EsNotFoundError, w)
           end.

(** [es.search(...)["hits"]["hits"]] *)
Definition es_search (body : SearchBody) : M (list Hit) :=
  es_call (CSearch body) ;;;
  fun w => match es_index w with
           | Some _ => (Ok (es_rank (es_visible w) body), w)
           | None => (Raise EsNotFoundError, w)
           end.

(** *** Helpers and endpoints *)

Definition index_mapping : Mapping :=
  [ ("text"%string, FText);
    ("meta"%string, FObject true);
    ("embedding"%string, FDenseVector (EMBEDDING_DIM cfg) true "cosine") ].

Definition ensure_index : M unit :=
  e <- es_indices_exists ;;
  if e then ret tt else es_indices_create index_mapping.

Definition startup : M unit :=
  p <- es_ping ;;
  if negb p then raise RuntimeError else ensure_index.

Definition health : HealthResponse :=
  {| health_ok := true;
     health_elastic := ELASTIC_URL cfg;
     health_index := INDEX_NAME cfg;
     health_dim := EMBEDDING_DIM cfg;
     health_embedding_provider := EMBEDDING_PROVIDER cfg |}.

Definition create_index : M CreateIndexResponse :=
  ensure_index ;;;
  ret {| ci_ok := true; ci_index := INDEX_NAME cfg;
         ci_dim := EMBEDDING_DIM cfg |}.

(** The body of the loop of [ingest], for one text. *)
Definition ingest_one (meta : json_obj) (t : string) : M string :=
  doc_id <- uuid4 ;;
  vec <- embed t ;;
  es_index_doc doc_id
    {| src_text := t; src_meta := Some meta; src_embedding := vec |} ;;;
  ret doc_id.

(** The loop of [ingest]; [acc] is the list [ids] so far. *)
Fixpoint ingest_loop (meta : json_obj) (texts : list string)
    (acc : list string) : M (list string) :=
  match texts with
  | [] => ret acc
  | t :: rest =>
      doc_id <- ingest_one meta t ;;
      ingest_loop meta rest (acc ++ [doc_id])
  end.

Definition ingest (req : IngestRequest) : M IngestResponse :=
  ensure_index ;;;
  let meta := or_empty (ingest_metadatos req) in
  l <- ingest_loop meta (frases req) [] ;;
  es_indices_refresh ;;;
  ret {| ing_ok := true; inserted_count := Z.of_nat (length l); ids := l |}.

Definition not_found {A} : M A := raise (HTTPException 404 DocumentNotFound).

Definition delete_document (doc_id : string) : M DeleteResponse :=
  try_except (es_delete doc_id) not_found ;;;
  es_indices_refresh ;;;
  ret {| del_ok := true; deleted_id := doc_id |}.

Definition update_document (doc_id : string) (req : UpdateRequest)
    : M UpdateResponse :=
  current <- try_except (es_get doc_id) not_found ;;
  let new_text := match text req with
                  | Some t => t
                  | None => src_text current
                  end in
  let new_meta := match metadatos req with
                  | Some m => m
                  | None => default [] (src_meta current)
                  end in
  new_vec <- embed new_text ;;
  es_index_doc doc_id
    {| src_text := new_text; src_meta := Some new_meta;
       src_embedding := new_vec |} ;;;
  es_indices_refresh ;;;
  ret {| upd_ok := true; upd_id := doc_id; upd_text := new_text |}.

(** One hit, in the shape the service answers. *)
Definition hit_result (h : Hit) : SearchResult :=
  {| res_id := hit_id h;
     res_text := src_text (hit_source h);
     res_meta := default [] (src_meta (hit_source h));
     res_score := hit_score h |}.

(** The [knn] argument of the semantic and the hybrid search. *)
Definition knn_clause (qvec : list float) (k : Z) : Knn :=
  {| knn_field := "embedding";
     query_vector := qvec;
     knn_k := k;
     num_candidates := Z.max (k * 20) 100 |}.

Definition search_lexical (req : SearchRequest) : M SearchResponse :=
  let q := query req in
  hits <- es_search {| sb_size := top_k req;
                       sb_query := Some (QMatch "text" q);
                       sb_knn := None |} ;;
  ret {| sr_ok := true; sr_type := "lexical";
         results := map hit_result hits |}.

Definition search_semantic (req : SearchRequest) : M SearchResponse :=
  qvec <- embed (query req) ;;
  hits <- es_search {| sb_size := top_k req;
                       sb_query := None;
                       sb_knn := Some (knn_clause qvec (top_k req)) |} ;;
  ret {| sr_ok := true; sr_type := "semantic";
         results := map hit_result hits |}.

Definition search_hybrid (req : SearchRequest) : M SearchResponse :=
  qvec <- embed (query req) ;;
  hits <- es_search
            {| sb_size := top_k req;
               sb_query := Some (QBoolShould [QMatch "text" (query req)]);
               sb_knn := Some (knn_clause qvec (top_k req)) |} ;;
  ret {| sr_ok := true; sr_type := "hybrid";
         results := map hit_result hits |}.

End Service.

(** ** A concrete environment, to run the program on *)

Module Sample.

Definition cfg_fake : Config :=
  {| ELASTIC_URL := "http://localhost:9200";
     INDEX_NAME := "phrases_openai";
     EMBEDDING_PROVIDER := "fake";
     EMBEDDING_DIM := 10;
     OPENAI_API_KEY := "";
     OPENAI_EMBED_MODEL := "text-embedding-3-small" |}.

Definition cfg_openai : Config :=
  {| ELASTIC_URL := "http://localhost:9200";
     INDEX_NAME := "phrases_openai";
     EMBEDDING_PROVIDER := "openai";
     EMBEDDING_DIM := 3;
     OPENAI_API_KEY := "sk-test";
     OPENAI_EMBED_MODEL := "text-embedding-3-small" |}.

(** Ids "x", "xx", "xxx", ...: one more character at every draw. *)
Fixpoint xs (k : nat) : string :=
  match k with
  | O => "x"
  | S k' => ("x" +:+ xs k')%string
  end.

Definition uuid4_nth (k : nat) : string := xs k.

(** A server that ranks every visible document with score 1, in the
    order of the ids, and answers the first [size] of them. *)
Definition es_rank (docs : gmap string Source) (body : SearchBody) : list Hit :=
  firstn (Z.to_nat (sb_size body))
    (map (fun kv => {| hit_id := fst kv; hit_source := snd kv;
                       hit_score := 1%Q |})
         (map_to_list docs)).

Definition doc_hello : Source :=
  {| src_text := "hello world";
     src_meta := Some [("lang"%string, JStr "en")];
     src_embedding := fake_embed cfg_fake "hello world" |}.

Definition doc_bare : Source :=
  {| src_text := "bare"; src_meta := None; src_embedding := [] |}.

(** A fresh server: reachable, no index. *)
Definition w_empty : World :=
  {| es_faults := []; es_index := None; es_docs := ∅; es_visible := ∅;
     es_log := []; uuid_drawn := 0; openai_replies := []; openai_log := [] |}.

(** A server with the index and two documents, all visible. *)
Definition w_two : World :=
  {| es_faults := [];
     es_index := Some (index_mapping cfg_fake);
     es_docs := <["a" := doc_hello]> (<["b" := doc_bare]> ∅);
     es_visible := <["a" := doc_hello]> (<["b" := doc_bare]> ∅);
     es_log := []; uuid_drawn := 0; openai_replies := []; openai_log := [] |}.

(** The same server, whose next call cannot be reached. *)
Definition w_down : World := set_faults [true] w_two.

End Sample.

(** ** The reference embedding, as the specification words it *)

(** The hash repeated the least number of times that gives at least
    [4 * D] bytes. *)
Definition ref_stretch (h : list Z) (D : Z) : list Z :=
  concat (repeat h (Z.to_nat ((4 * D + Z.of_nat (length h) - 1)
                              / Z.of_nat (length h)))).

(** Four bytes read as a little-endian unsigned integer. *)
Definition ref_le32 (b0 b1 b2 b3 : Z) : Z :=
  b0 + 2 ^ 8 * b1 + 2 ^ 16 * b2 + 2 ^ 24 * b3.

(** Component [i]: bytes [4i .. 4i+3] of the stretched hash, modulo
    100000, over 100000. *)
Definition ref_component (s : list Z) (i : nat) : float :=
  let n := ref_le32 (nth (4 * i) s 0) (nth (4 * i + 1) s 0)
                    (nth (4 * i + 2) s 0) (nth (4 * i + 3) s 0) in
  Qmake (n mod 100000) 100000.

Definition ref_embed (D : Z) (t : string) : list float :=
  let s := ref_stretch (SHA256.digest (encode_utf8 t)) D in
  map (ref_component s) (seq 0 (Z.to_nat D)).

(** ** Notions used in the statements *)

(** The world after a call was sent: the call is recorded and one entry
    of the fault schedule is used up. *)
Definition sent (c : EsCall) (w : World) : World :=
  set_faults (tail (es_faults w)) (set_log (es_log w ++ [c]) w).

(** Whether the next call to the server fails in transport. *)
Definition next_fails (w : World) : bool := hd false (es_faults w).

(** The text and the metadata an update writes. *)
Definition effective_text (req : UpdateRequest) (cur : Source) : string :=
  match text req with Some t => t | None => src_text cur end.

Definition effective_meta (req : UpdateRequest) (cur : Source) : json_obj :=
  match metadatos req with Some m => m | None => default [] (src_meta cur) end.

Definition NotFound {A} : Result A :=
  Raise (HTTPException 404 DocumentNotFound).

(** The first call of the operation to the server (get or delete) does
    not go through: the transport fails, or the server has no such index
    or no such document. *)
Definition first_call_fails (id : string) (w : World) : Prop :=
  next_fails w = true \/ es_index w = None \/ es_docs w !! id = None.

Definition lexical_body (req : SearchRequest) : SearchBody :=
  {| sb_size := top_k req;
     sb_query := Some (QMatch "text" (query req));
     sb_knn := None |}.

Definition semantic_body (req : SearchRequest) (qvec : list float)
    : SearchBody :=
  {| sb_size := top_k req;
     sb_query := None;
     sb_knn := Some {| knn_field := "embedding"; query_vector := qvec;
                       knn_k := top_k req;
                       num_candidates := Z.max (top_k req * 20) 100 |} |}.

Definition hybrid_body (req : SearchRequest) (qvec : list float)
    : SearchBody :=
  {| sb_size := top_k req;
     sb_query := Some (QBoolShould [QMatch "text" (query req)]);
     sb_knn := Some {| knn_field := "embedding"; query_vector := qvec;
                       knn_k := top_k req;
                       num_candidates := Z.max (top_k req * 20) 100 |} |}.

(** What one search call answers, given its body and its type. *)
Definition search_answer (rank : gmap string Source -> SearchBody -> list Hit)
    (ty : string) (body : SearchBody) (w : World)
    : Result SearchResponse * World :=
  (if next_fails w then Raise EsConnectionError
   else match es_index w with
        | Some _ => Ok {| sr_ok := true; sr_type := ty;
                          results := map hit_result (rank (es_visible w) body) |}
        | None => Raise EsNotFoundError
        end,
   sent (CSearch body) w).



(** The document stored for a text. *)
Definition new_doc (meta : json_obj) (t : string) (v : list float) : Source :=
  {| src_text := t; src_meta := Some meta; src_embedding := v |}.

(** Documents written one after the other under their ids. *)
Definition store_all (l : list string) (docs : list Source)
    (m : gmap string Source) : gmap string Source :=
  fold_left (fun acc p => <[fst p := snd p]> acc) (zip l docs) m.

(** [embed] called on each text in turn, as the loop of [ingest] calls
    it: the vectors it returns, in the order of the texts. *)
Fixpoint embed_each (cfg : Config) (ts : list string)
    : M (list (list float)) :=
  match ts with
  | [] => ret []
  | t :: rest =>
      v <- embed cfg t ;;
      vs <- embed_each cfg rest ;;
      ret (v :: vs)
  end.

(** A result carries the id, the text and the score of a hit, and its
    metadata, the empty map when the hit has none. *)
Definition result_of_hit (r : SearchResult) (h : Hit) : Prop :=
  res_id r = hit_id h /\
  res_text r = src_text (hit_source h) /\
  res_meta r = match src_meta (hit_source h) with
               | Some m => m
               | None => []
               end /\
  res_score r = hit_score h.

(** [v] is a vector that [embed] returned for [t]. *)
Definition embedded (cfg : Config) (t : string) (v : list float) : Prop :=
  exists wa wb, embed cfg t wa = (Ok v, wb).

Definition sample_batch : IngestRequest :=
  {| frases := ["hello world"; "bare"; "later"]%string;
     ingest_metadatos := None |}.

(** The server answers three calls and cannot be reached at the fourth. *)
Definition w_fourth_fails : World :=
  set_faults [false; false; false; true] Sample.w_empty.

Definition w_after_ensure : World :=
  snd (ensure_index Sample.cfg_fake w_fourth_fails).

Definition w_after_first : World :=
  snd (ingest_loop Sample.cfg_fake Sample.uuid4_nth []
         ["hello world"%string] [] w_after_ensure).

Definition w_after_second : World :=
  snd (ingest_one Sample.cfg_fake Sample.uuid4_nth [] "bare" w_after_first).

(** The log only grows. *)
Definition log_extends (w w' : World) : Prop :=
  exists l, es_log w' = es_log w ++ l.

(** A server whose index was made for another dimension. *)
Definition w_other_dim : World :=
  set_index (Some [("embedding"%string, FDenseVector 1536 true "cosine")])
            Sample.w_two.

Definition cfg_no_key : Config :=
  {| ELASTIC_URL := "http://localhost:9200";
     INDEX_NAME := "phrases_openai";
     EMBEDDING_PROVIDER := "openai";
     EMBEDDING_DIM := 3;
     OPENAI_API_KEY := "";
     OPENAI_EMBED_MODEL := "text-embedding-3-small" |}.

(** The ids of the results of a response. *)
Definition result_ids (resp : SearchResponse) : list string :=
  map res_id (results resp).

(** A server answers hits only for documents a search can see. *)
Definition rank_within (rank : gmap string Source -> SearchBody -> list Hit)
    : Prop :=
  forall docs body h, In h (rank docs body) -> is_Some (docs !! hit_id h).

(** The parts of the world a search must not change. *)
Definition same_store (w w' : World) : Prop :=
  es_docs w' = es_docs w /\ es_visible w' = es_visible w /\
  es_index w' = es_index w /\ uuid_drawn w' = uuid_drawn w.

(** The requests the embeddings service receives for some texts: one per
    text, with the configured model, under the external strategy; none
    under the local one. *)
Definition embed_calls (cfg : Config) (ts : list string)
    : list (string * string) :=
  if String.eqb (EMBEDDING_PROVIDER cfg) "openai"
  then map (fun t => (OPENAI_EMBED_MODEL cfg, t)) ts
  else [].

(** The embeddings service answers two vectors of dimension 3. *)
Definition w_openai : World :=
  set_openai [Some [1%Q; 0%Q; 0%Q]; Some [0%Q; 1%Q; 0%Q]] [] Sample.w_empty.

(** The embeddings service answers one vector of dimension 3; the store
    is the one with two documents. *)
Definition w_openai_two : World :=
  set_openai [Some [1%Q; 0%Q; 0%Q]] [] Sample.w_two.

(** ** Properties of the embedding provider *)

Lemma digest_length (msg : list Z) : length (SHA256.digest msg) = 32%nat.
Proof.
  unfold SHA256.digest, SHA256.output.
  rewrite !length_app. reflexivity.
Qed.

(** The model against the standard's test vector for "abc", and two of
    its derived constants against their published values. *)
Lemma digest_abc :
  SHA256.digest (encode_utf8 "abc")
  = [186; 120; 22; 191; 143; 1; 207; 234; 65; 65; 64; 222; 93; 174; 34; 35;
     176; 3; 97; 163; 150; 23; 122; 156; 180; 16; 255; 97; 242; 0; 21; 173]
  /\ nth 63 SHA256.K 0 = 0xc67178f2
  /\ SHA256.ha SHA256.H0 = 0x6a09e667.
Proof. vm_compute. auto. Qed.

Lemma concat_repeat_length {A} (h : list A) (k : nat) :
  length (concat (repeat h k)) = (k * length h)%nat.
Proof.
  induction k as [|k IH]; simpl; [reflexivity|].
  rewrite length_app, IH. reflexivity.
Qed.

(** A repeated list is periodic. *)
Lemma nth_concat_repeat {A} (d : A) (h : list A) (k j : nat) :
  (j < k * length h)%nat ->
  nth j (concat (repeat h k)) d = nth (j mod length h) h d.
Proof.
  revert j. induction k as [|k IH]; intros j Hj; simpl in *; [lia|].
  destruct (Nat.lt_ge_cases j (length h)) as [Hlt|Hge].
  - rewrite app_nth1 by exact Hlt. rewrite Nat.mod_small by exact Hlt.
    reflexivity.
  - rewrite app_nth2 by exact Hge. rewrite IH by lia.
    f_equal.
    replace j with ((j - length h) + 1 * length h)%nat at 2 by lia.
    rewrite Nat.Div0.mod_add. reflexivity.
Qed.

(** A four-byte slice inside a list, byte by byte. *)
Lemma slice4_nth (l : list Z) (i : nat) :
  (4 * i + 4 <= length l)%nat ->
  firstn 4 (skipn (4 * i) l) =
  [nth (4 * i) l 0; nth (4 * i + 1) l 0; nth (4 * i + 2) l 0;
   nth (4 * i + 3) l 0].
Proof.
  intros Hlen.
  assert (Hs : forall k, nth k (skipn (4 * i) l) 0 = nth (4 * i + k) l 0).
  { intros k. rewrite <- (firstn_skipn (4 * i) l) at 2.
    rewrite app_nth2; rewrite length_firstn; [|lia].
    f_equal. lia. }
  assert (Hl : (4 <= length (skipn (4 * i) l))%nat)
    by (rewrite length_skipn; lia).
  destruct (skipn (4 * i) l) as [|a [|b [|c [|d r]]]] eqn:E;
    simpl in Hl; try lia.
  pose proof (Hs 0%nat) as E0. pose proof (Hs 1%nat) as E1.
  pose proof (Hs 2%nat) as E2. pose proof (Hs 3%nat) as E3.
  rewrite Nat.add_0_r in E0. cbn [nth] in E0, E1, E2, E3.
  rewrite <- E0, <- E1, <- E2, <- E3. reflexivity.
Qed.

Lemma range_length (n : Z) : length (range n) = Z.to_nat n.
Proof. unfold range. rewrite length_map, length_seq. reflexivity. Qed.

Lemma fake_embed_length (cfg : Config) (t : string) :
  length (fake_embed cfg t) = Z.to_nat (EMBEDDING_DIM cfg).
Proof. unfold fake_embed. rewrite length_map. apply range_length. Qed.

Lemma unit_interval_mod (n : Z) :
  (0 <= Qmake (n mod 100000) 100000)%Q /\ (Qmake (n mod 100000) 100000 < 1)%Q.
Proof.
  pose proof (Z.mod_pos_bound n 100000 ltac:(lia)) as Hb.
  unfold Qle, Qlt; simpl. lia.
Qed.

(** The four bytes of chunk [i] of a repeated 32-byte hash. *)
Lemma chunk_repeat (h : list Z) (k i : nat) :
  length h = 32%nat ->
  (4 * i + 4 <= k * 32)%nat ->
  let s := concat (repeat h k) in
  nth (4 * i) s 0 = nth ((4 * i) mod 32) h 0 /\
  nth (4 * i + 1) s 0 = nth ((4 * i + 1) mod 32) h 0 /\
  nth (4 * i + 2) s 0 = nth ((4 * i + 2) mod 32) h 0 /\
  nth (4 * i + 3) s 0 = nth ((4 * i + 3) mod 32) h 0.
Proof.
  intros Hh Hk s. subst s.
  repeat split; rewrite nth_concat_repeat by (rewrite Hh; lia);
    rewrite Hh; reflexivity.
Qed.

Lemma fake_component_ref (D : Z) (h : list Z) (i : nat) :
  length h = 32%nat ->
  (i < Z.to_nat D)%nat ->
  int_from_bytes_little
    (bytes_slice (bytes_mul h (D * 4 / Z.of_nat (length h) + 1))
                 (Z.of_nat i * 4) ((Z.of_nat i + 1) * 4))
  = ref_le32 (nth (4 * i) (ref_stretch h D) 0)
             (nth (4 * i + 1) (ref_stretch h D) 0)
             (nth (4 * i + 2) (ref_stretch h D) 0)
             (nth (4 * i + 3) (ref_stretch h D) 0).
Proof.
  intros Hh Hi.
  unfold bytes_slice, bytes_mul, ref_stretch. rewrite Hh.
  replace (Z.to_nat ((Z.of_nat i + 1) * 4 - Z.of_nat i * 4)) with 4%nat by lia.
  replace (Z.to_nat (Z.of_nat i * 4)) with (4 * i)%nat by lia.
  set (kc := Z.to_nat (D * 4 / Z.of_nat 32 + 1)).
  set (kr := Z.to_nat ((4 * D + Z.of_nat 32 - 1) / Z.of_nat 32)).
  assert (Hkc : (4 * i + 4 <= kc * 32)%nat).
  { subst kc. pose proof (Z.div_mod (D * 4) 32 ltac:(lia)).
    pose proof (Z.mod_pos_bound (D * 4) 32 ltac:(lia)).
    change (Z.of_nat 32) with 32. lia. }
  assert (Hkr : (4 * i + 4 <= kr * 32)%nat).
  { subst kr. change (Z.of_nat 32) with 32.
    pose proof (Z.div_mod (4 * D + 32 - 1) 32 ltac:(lia)).
    pose proof (Z.mod_pos_bound (4 * D + 32 - 1) 32 ltac:(lia)).
    lia. }
  rewrite slice4_nth by (rewrite concat_repeat_length, Hh; exact Hkc).
  destruct (chunk_repeat h kc i Hh Hkc) as (-> & -> & -> & ->).
  destruct (chunk_repeat h kr i Hh Hkr) as (-> & -> & -> & ->).
  unfold ref_le32. cbn [int_from_bytes_little]. ring.
Qed.

Lemma fake_embed_eq_ref (cfg : Config) (t : string) :
  fake_embed cfg t = ref_embed (EMBEDDING_DIM cfg) t.
Proof.
  unfold fake_embed, ref_embed, range. rewrite map_map.
  apply map_ext_in. intros i Hi. apply in_seq in Hi.
  unfold ref_component. f_equal. f_equal.
  apply fake_component_ref; [apply digest_length | lia].
Qed.

Lemma fake_embed_unit_interval (cfg : Config) (t : string) :
  Forall (fun x => (0 <= x)%Q /\ (x < 1)%Q) (fake_embed cfg t).
Proof.
  unfold fake_embed. apply List.Forall_forall. intros x Hx.
  apply in_map_iff in Hx. destruct Hx as (i & <- & _).
  apply unit_interval_mod.
Qed.

Lemma embed_fake (cfg : Config) (t : string) (w : World) :
  EMBEDDING_PROVIDER cfg <> "openai"%string ->
  embed cfg t w = (Ok (fake_embed cfg t), w).
Proof.
  intros Hp. unfold embed.
  destruct (String.eqb_spec (EMBEDDING_PROVIDER cfg) "openai") as [E|_];
    [contradiction|reflexivity].
Qed.

(** C2. The local strategy is the reference function: the SHA-256 of the
    text repeated to at least 4*D bytes, each component the 4-byte
    little-endian unsigned integer at its position reduced modulo 100000
    and divided by 100000; every component lies in [0, 1); and the vector
    depends on nothing but the text and D: the same text gives the same
    vector under any configuration with that D and in any state of the
    world, which the call leaves as it was. *)
Theorem fake_embed_reference (cfg : Config) (t : string) :
  fake_embed cfg t = ref_embed (EMBEDDING_DIM cfg) t
  /\ Forall (fun x => (0 <= x)%Q /\ (x < 1)%Q) (fake_embed cfg t)
  /\ (forall (cfg2 : Config) (t2 : string),
        t2 = t -> EMBEDDING_DIM cfg2 = EMBEDDING_DIM cfg ->
        fake_embed cfg2 t2 = fake_embed cfg t)
  /\ (forall w1 w2 : World,
        EMBEDDING_PROVIDER cfg <> "openai"%string ->
        embed cfg t w1 = (Ok (fake_embed cfg t), w1) /\
        fst (embed cfg t w2) = fst (embed cfg t w1)).
Proof.
  split; [apply fake_embed_eq_ref|].
  split; [apply fake_embed_unit_interval|].
  split.
  - intros cfg2 t2 -> HD. rewrite !fake_embed_eq_ref, HD. reflexivity.
  - intros w1 w2 Hp. rewrite !embed_fake by exact Hp. split; reflexivity.
Qed.

Lemma fake_embed_reference_witness :
  fake_embed Sample.cfg_fake "hello world"
  = ref_embed 10 "hello world"
  /\ embed Sample.cfg_fake "hello world" Sample.w_two
     = (Ok (fake_embed Sample.cfg_fake "hello world"), Sample.w_two).
Proof.
  destruct (fake_embed_reference Sample.cfg_fake "hello world")
    as (H1 & _ & _ & H4).
  split; [exact H1|].
  apply (H4 Sample.w_two Sample.w_two). discriminate.
Defined.

(** What the external strategy answers, by cases. *)
Lemma openai_embed_ok (cfg : Config) (t : string) (w w' : World)
    (v : list float) :
  openai_embed cfg t w = (Ok v, w') ->
  OPENAI_API_KEY cfg <> ""%string /\
  (exists rest, openai_replies w = Some v :: rest) /\
  Z.of_nat (length v) = EMBEDDING_DIM cfg /\
  openai_log w' = openai_log w ++ [(OPENAI_EMBED_MODEL cfg, t)].
Proof.
  unfold openai_embed.
  destruct (String.eqb_spec (OPENAI_API_KEY cfg) "") as [E|E];
    [discriminate|].
  unfold bind, openai_embeddings_create, raise, ret.
  destruct (openai_replies w) as [|[vec|] rest] eqn:Hr; try discriminate.
  destruct (Z.eqb_spec (Z.of_nat (length vec)) (EMBEDDING_DIM cfg)) as [El|El];
    simpl; [|discriminate].
  intros H. inversion H; subst. simpl. eauto.
Qed.

Lemma openai_embed_mismatch (cfg : Config) (t : string) (w : World)
    (vec : list float) (rest : list (option (list float))) :
  OPENAI_API_KEY cfg <> ""%string ->
  openai_replies w = Some vec :: rest ->
  Z.of_nat (length vec) <> EMBEDDING_DIM cfg ->
  fst (openai_embed cfg t w)
  = Raise (HTTPException 500
             (DimensionDetail (Z.of_nat (length vec)) (EMBEDDING_DIM cfg))).
Proof.
  intros Hk Hr Hl. unfold openai_embed.
  destruct (String.eqb_spec (OPENAI_API_KEY cfg) "") as [E|E];
    [contradiction|].
  unfold bind, openai_embeddings_create, raise, ret. rewrite Hr.
  destruct (Z.eqb_spec (Z.of_nat (length vec)) (EMBEDDING_DIM cfg)) as [El|El];
    [contradiction|reflexivity].
Qed.

(** C3. Whenever [embed] returns a vector, under either strategy, the
    vector has exactly D elements (D being a dimension, that is not
    negative); and when the external service answers a vector of another
    length, the call fails with the dimension-mismatch error instead of
    returning it. *)
Theorem embed_dimension (cfg : Config) (t : string) (w : World) :
  0 <= EMBEDDING_DIM cfg ->
  (forall v w', embed cfg t w = (Ok v, w') ->
                Z.of_nat (length v) = EMBEDDING_DIM cfg)
  /\ (forall vec rest,
        EMBEDDING_PROVIDER cfg = "openai"%string ->
        OPENAI_API_KEY cfg <> ""%string ->
        openai_replies w = Some vec :: rest ->
        Z.of_nat (length vec) <> EMBEDDING_DIM cfg ->
        fst (embed cfg t w)
        = Raise (HTTPException 500
                   (DimensionDetail (Z.of_nat (length vec))
                                    (EMBEDDING_DIM cfg)))).
Proof.
  intros HD. split.
  - intros v w' H. unfold embed in H.
    destruct (String.eqb (EMBEDDING_PROVIDER cfg) "openai").
    + apply openai_embed_ok in H. tauto.
    + inversion H; subst. rewrite fake_embed_length. lia.
  - intros vec rest Hp Hk Hr Hl. unfold embed. rewrite Hp. simpl.
    eapply openai_embed_mismatch; eassumption.
Qed.

Lemma embed_dimension_witness :
  Z.of_nat (length (fake_embed Sample.cfg_fake "hello world")) = 10
  /\ fst (embed Sample.cfg_openai "hello world"
            (set_openai [Some [1%Q; 2%Q]] [] Sample.w_two))
     = Raise (HTTPException 500 (DimensionDetail 2 3)).
Proof.
  split.
  - apply (proj1 (embed_dimension Sample.cfg_fake "hello world" Sample.w_two
                    ltac:(simpl; lia))
             _ Sample.w_two).
    reflexivity.
  - apply (proj2 (embed_dimension Sample.cfg_openai "hello world"
                    (set_openai [Some [1%Q; 2%Q]] [] Sample.w_two)
                    ltac:(simpl; lia))
             [1%Q; 2%Q] []); simpl; [reflexivity|discriminate|reflexivity|lia].
Defined.

(** ** Properties of the client calls *)

Lemma es_call_run (c : EsCall) (w : World) :
  es_call c w
  = (if next_fails w then Raise EsConnectionError else Ok tt, sent c w).
Proof.
  unfold es_call, next_fails, sent.
  destruct (es_faults w) as [|[] fs]; reflexivity.
Qed.

Lemma es_get_run (id : string) (w : World) :
  es_get id w
  = (if next_fails w then Raise EsConnectionError
     else match es_index w, es_docs w !! id with
          | Some _, Some src => Ok src
          | _, _ => Raise EsNotFoundError
          end,
     sent (CGet id) w).
Proof.
  unfold es_get, bind. rewrite es_call_run.
  destruct (next_fails w); [reflexivity|]. simpl.
  destruct (es_index w); [|reflexivity].
  destruct (es_docs w !! id); reflexivity.
Qed.

Lemma es_delete_run (id : string) (w : World) :
  es_delete id w
  = if next_fails w then (Raise EsConnectionError, sent (CDelete id) w)
    else match es_index w, es_docs w !! id with
         | Some _, Some _ =>
             (Ok tt, set_docs (delete id (es_docs w)) (sent (CDelete id) w))
         | _, _ => (Raise EsNotFoundError, sent (CDelete id) w)
         end.
Proof.
  unfold es_delete, bind. rewrite es_call_run.
  destruct (next_fails w); [reflexivity|]. simpl.
  destruct (es_index w); [|reflexivity].
  destruct (es_docs w !! id); reflexivity.
Qed.

Lemma es_index_doc_run (id : string) (doc : Source) (w : World) :
  es_index_doc id doc w
  = if next_fails w then (Raise EsConnectionError, sent (CIndex id doc) w)
    else (Ok tt,
          set_docs (<[id := doc]> (es_docs w))
            match es_index w with
            | Some _ => sent (CIndex id doc) w
            | None => set_index (Some []) (sent (CIndex id doc) w)
            end).
Proof.
  unfold es_index_doc, bind. rewrite es_call_run.
  destruct (next_fails w); [reflexivity|]. simpl.
  destruct (es_index w); reflexivity.
Qed.

Lemma es_indices_refresh_run (w : World) :
  es_indices_refresh w
  = if next_fails w then (Raise EsConnectionError, sent CIndicesRefresh w)
    else match es_index w with
         | Some _ => (Ok tt, set_visible (es_docs w) (sent CIndicesRefresh w))
         | None => (Raise EsNotFoundError, sent CIndicesRefresh w)
         end.
Proof.
  unfold es_indices_refresh, bind. rewrite es_call_run.
  destruct (next_fails w); [reflexivity|]. simpl.
  destruct (es_index w); reflexivity.
Qed.

Lemma es_search_run (rank : gmap string Source -> SearchBody -> list Hit)
    (body : SearchBody) (w : World) :
  es_search rank body w
  = (if next_fails w then Raise EsConnectionError
     else match es_index w with
          | Some _ => Ok (rank (es_visible w) body)
          | None => Raise EsNotFoundError
          end,
     sent (CSearch body) w).
Proof.
  unfold es_search, bind. rewrite es_call_run.
  destruct (next_fails w); [reflexivity|]. simpl.
  destruct (es_index w); reflexivity.
Qed.

Lemma ensure_index_run (cfg : Config) (w : World) :
  ensure_index cfg w
  = if next_fails w then (Raise EsConnectionError, sent CIndicesExists w)
    else match es_index w with
         | Some _ => (Ok tt, sent CIndicesExists w)
         | None =>
             let w1 := sent CIndicesExists w in
             if next_fails w1
             then (Raise EsConnectionError,
                   sent (CIndicesCreate (index_mapping cfg)) w1)
             else (Ok tt,
                   set_index (Some (index_mapping cfg))
                     (sent (CIndicesCreate (index_mapping cfg)) w1))
         end.
Proof.
  unfold ensure_index, es_indices_exists, es_indices_create, bind.
  rewrite es_call_run.
  destruct (next_fails w); [reflexivity|]. simpl.
  destruct (es_index w) eqn:Hi; simpl.
  - reflexivity.
  - rewrite es_call_run. simpl.
    destruct (next_fails (sent CIndicesExists w)); [reflexivity|].
    simpl. rewrite Hi. reflexivity.
Qed.

(** The embedding provider never touches the server. *)
Lemma embed_frame (cfg : Config) (t : string) (w : World) :
  let w' := snd (embed cfg t w) in
  es_faults w' = es_faults w /\ es_index w' = es_index w /\
  es_docs w' = es_docs w /\ es_visible w' = es_visible w /\
  es_log w' = es_log w /\ uuid_drawn w' = uuid_drawn w.
Proof.
  unfold embed, openai_embed, openai_embeddings_create, bind, raise, ret.
  destruct (String.eqb (EMBEDDING_PROVIDER cfg) "openai"); [|simpl; tauto].
  destruct (String.eqb (OPENAI_API_KEY cfg) ""); [simpl; tauto|].
  destruct (openai_replies w) as [|[vec|] rest]; simpl; try tauto.
  destruct (negb (Z.of_nat (length vec) =? EMBEDDING_DIM cfg)); simpl; tauto.
Qed.

(** The errors the embedding provider can raise. *)
Lemma embed_raises (cfg : Config) (t : string) (w w' : World) (e : exn) :
  embed cfg t w = (Raise e, w') ->
  e = OpenAIError \/ exists d, e = HTTPException 500 d.
Proof.
  unfold embed, openai_embed, openai_embeddings_create, bind, raise, ret.
  destruct (String.eqb (EMBEDDING_PROVIDER cfg) "openai"); [|discriminate].
  destruct (String.eqb (OPENAI_API_KEY cfg) "").
  { intros H; inversion H; eauto. }
  destruct (openai_replies w) as [|[vec|] rest]; simpl;
    try (intros H; inversion H; eauto; fail).
  destruct (negb (Z.of_nat (length vec) =? EMBEDDING_DIM cfg)); simpl;
    intros H; inversion H; eauto.
Qed.

(** ** Properties of update and delete *)

(** A successful update, step by step. *)
Lemma update_document_ok (cfg : Config) (id : string) (req : UpdateRequest)
    (w w' : World) (resp : UpdateResponse) :
  update_document cfg id req w = (Ok resp, w') ->
  exists cur vec w2,
    let doc := {| src_text := effective_text req cur;
                  src_meta := Some (effective_meta req cur);
                  src_embedding := vec |} in
    next_fails w = false /\
    es_index w <> None /\
    es_docs w !! id = Some cur /\
    embed cfg (effective_text req cur) (sent (CGet id) w) = (Ok vec, w2) /\
    resp = {| upd_ok := true; upd_id := id;
              upd_text := effective_text req cur |} /\
    es_docs w' = <[id := doc]> (es_docs w) /\
    es_visible w' = es_docs w' /\
    es_index w' = es_index w /\
    es_log w' = es_log w ++ [CGet id; CIndex id doc; CIndicesRefresh].
Proof.
  unfold update_document, bind, try_except, not_found, raise, ret.
  rewrite es_get_run.
  destruct (next_fails w) eqn:Hf; [discriminate|].
  destruct (es_index w) as [mp|] eqn:Hi; [|discriminate].
  destruct (es_docs w !! id) as [cur|] eqn:Hd; [|discriminate].
  fold (effective_text req cur). fold (effective_meta req cur).
  destruct (embed cfg (effective_text req cur) (sent (CGet id) w))
    as [[vec|e] w2] eqn:He; [|discriminate].
  pose proof (embed_frame cfg (effective_text req cur) (sent (CGet id) w))
    as Hfr.
  rewrite He in Hfr. simpl in Hfr.
  destruct Hfr as (Hff & Hfi & Hfd & Hfv & Hfl & _).
  rewrite es_index_doc_run.
  destruct (next_fails w2) eqn:Hf2; [discriminate|].
  rewrite es_indices_refresh_run.
  match goal with |- context [next_fails ?x] => destruct (next_fails x) end;
    [discriminate|].
  rewrite Hfi, Hi. simpl. rewrite Hfi, Hi. simpl.
  intros H. inversion H; subst; clear H.
  exists cur, vec, w2. simpl.
  rewrite Hfd, Hfl, Hfi, Hi. simpl.
  repeat split; try reflexivity; try congruence.
  rewrite <- !app_assoc. reflexivity.
Qed.

(** An update of a stored document goes through when the server answers
    its three calls and the embedding is computed. *)
Lemma update_document_succeeds (cfg : Config) (id : string)
    (req : UpdateRequest) (w : World) (cur : Source) (mp : Mapping) :
  es_faults w = [] ->
  es_index w = Some mp ->
  es_docs w !! id = Some cur ->
  EMBEDDING_PROVIDER cfg <> "openai"%string ->
  exists w',
    update_document cfg id req w
    = (Ok {| upd_ok := true; upd_id := id;
             upd_text := effective_text req cur |}, w').
Proof.
  intros Hf Hi Hd Hp.
  unfold update_document, bind, try_except, not_found, raise, ret.
  rewrite es_get_run. unfold next_fails at 1. rewrite Hf, Hi, Hd. simpl.
  fold (effective_text req cur). fold (effective_meta req cur).
  rewrite embed_fake by exact Hp.
  rewrite es_index_doc_run. unfold next_fails at 1. simpl. rewrite Hf. simpl.
  rewrite es_indices_refresh_run. unfold next_fails at 1. simpl.
  rewrite Hi. simpl. rewrite Hf. simpl. rewrite Hi. simpl.
  eexists. reflexivity.
Qed.

(** C4. An update that supplies only metadata, when it succeeds, leaves
    the stored text as it was, replaces the metadata with the supplied
    value, and stores the vector that [embed] computed from the retained
    text during that call. *)
Theorem update_metadata_only (cfg : Config) (id : string) (m : json_obj)
    (w w' : World) (resp : UpdateResponse) :
  update_document cfg id {| text := None; metadatos := Some m |} w
  = (Ok resp, w') ->
  exists cur vec w2,
    es_docs w !! id = Some cur /\
    embed cfg (src_text cur) (sent (CGet id) w) = (Ok vec, w2) /\
    es_docs w' !! id = Some {| src_text := src_text cur;
                               src_meta := Some m;
                               src_embedding := vec |} /\
    upd_text resp = src_text cur.
Proof.
  intros H. apply update_document_ok in H.
  destruct H as (cur & vec & w2 & _ & _ & Hd & He & -> & Hdocs & _).
  exists cur, vec, w2. unfold effective_text, effective_meta in *.
  simpl in *. rewrite Hdocs, lookup_insert_eq. auto.
Qed.

Lemma update_metadata_only_witness :
  exists w',
    update_document Sample.cfg_fake "b"
      {| text := None; metadatos := Some [("k"%string, JInt 1)] |}
      Sample.w_two
    = (Ok {| upd_ok := true; upd_id := "b"; upd_text := "bare" |}, w')
    /\ es_docs w' !! "b"%string
       = Some {| src_text := "bare";
                 src_meta := Some [("k"%string, JInt 1)];
                 src_embedding := fake_embed Sample.cfg_fake "bare" |}.
Proof.
  destruct (update_document_succeeds Sample.cfg_fake "b"
              {| text := None; metadatos := Some [("k"%string, JInt 1)] |}
              Sample.w_two Sample.doc_bare (index_mapping Sample.cfg_fake)
              eq_refl eq_refl eq_refl ltac:(discriminate)) as [w' Hw].
  exists w'. split; [exact Hw|].
  destruct (update_metadata_only _ _ _ _ _ _ Hw)
    as (cur & vec & w2 & Hc & He & Hd & _).
  assert (Hb : es_docs Sample.w_two !! "b"%string = Some Sample.doc_bare)
    by reflexivity.
  rewrite Hb in Hc. inversion Hc; subst cur.
  rewrite embed_fake in He by discriminate.
  inversion He; subst. exact Hd.
Defined.

(** C10. Presence, not truthiness, decides what an update replaces: with
    the empty string as text, a successful update stores the empty text
    and the vector computed from the empty string; with the empty map as
    metadata, it stores the empty map. Neither falls back to what was
    stored. *)
Theorem update_empty_values (cfg : Config) (id : string) (w : World) :
  (forall mo resp w',
     update_document cfg id {| text := Some ""%string; metadatos := mo |} w
     = (Ok resp, w') ->
     exists vec w2 meta,
       embed cfg "" (sent (CGet id) w) = (Ok vec, w2) /\
       es_docs w' !! id = Some {| src_text := ""; src_meta := Some meta;
                                  src_embedding := vec |} /\
       upd_text resp = ""%string)
  /\ (forall topt resp w',
        update_document cfg id {| text := topt; metadatos := Some [] |} w
        = (Ok resp, w') ->
        exists d, es_docs w' !! id = Some d /\ src_meta d = Some []).
Proof.
  split.
  - intros mo resp w' H. apply update_document_ok in H.
    destruct H as (cur & vec & w2 & _ & _ & _ & He & -> & Hdocs & _).
    unfold effective_text in *. simpl in *.
    exists vec, w2, (effective_meta {| text := Some ""%string;
                                       metadatos := mo |} cur).
    rewrite Hdocs, lookup_insert_eq. auto.
  - intros topt resp w' H. apply update_document_ok in H.
    destruct H as (cur & vec & w2 & _ & _ & _ & _ & _ & Hdocs & _).
    eexists. rewrite Hdocs, lookup_insert_eq. split; reflexivity.
Qed.

Lemma update_empty_values_witness :
  (exists w',
     update_document Sample.cfg_fake "a"
       {| text := Some ""%string; metadatos := None |} Sample.w_two
     = (Ok {| upd_ok := true; upd_id := "a"; upd_text := "" |}, w')
     /\ es_docs w' !! "a"%string
        = Some {| src_text := "";
                  src_meta := Some [("lang"%string, JStr "en")];
                  src_embedding := fake_embed Sample.cfg_fake "" |})
  /\ (exists w' d,
        snd (update_document Sample.cfg_fake "a"
               {| text := None; metadatos := Some [] |} Sample.w_two) = w'
        /\ es_docs w' !! "a"%string = Some d /\ src_meta d = Some []).
Proof.
  split.
  - destruct (update_document_succeeds Sample.cfg_fake "a"
                {| text := Some ""%string; metadatos := None |}
                Sample.w_two Sample.doc_hello (index_mapping Sample.cfg_fake)
                eq_refl eq_refl eq_refl ltac:(discriminate)) as [w' Hw].
    exists w'. split; [exact Hw|].
    destruct (proj1 (update_empty_values Sample.cfg_fake "a" Sample.w_two)
                _ _ _ Hw) as (vec & w2 & meta & He & Hd & _).
    rewrite embed_fake in He by discriminate. inversion He; subst vec.
    pose proof Hw as Hk. apply update_document_ok in Hk.
    destruct Hk as (cur & vec & w3 & _ & _ & Hc & _ & _ & Hdocs & _).
    assert (Ha : es_docs Sample.w_two !! "a"%string = Some Sample.doc_hello)
      by reflexivity.
    rewrite Ha in Hc. inversion Hc; subst cur.
    rewrite Hdocs, lookup_insert_eq in Hd. inversion Hd; subst.
    rewrite Hdocs, lookup_insert_eq. reflexivity.
  - destruct (update_document_succeeds Sample.cfg_fake "a"
                {| text := None; metadatos := Some [] |}
                Sample.w_two Sample.doc_hello (index_mapping Sample.cfg_fake)
                eq_refl eq_refl eq_refl ltac:(discriminate)) as [w' Hw].
    destruct (proj2 (update_empty_values Sample.cfg_fake "a" Sample.w_two)
                _ _ _ Hw) as (d & Hd & Hm).
    exists w', d. rewrite Hw. auto.
Defined.

(** ** NotFound on update and delete *)

Lemma delete_document_run (id : string) (w : World) :
  delete_document id w
  = if next_fails w then (NotFound, sent (CDelete id) w)
    else match es_index w, es_docs w !! id with
         | Some _, Some _ =>
             let w1 := set_docs (delete id (es_docs w)) (sent (CDelete id) w) in
             if next_fails w1
             then (Raise EsConnectionError, sent CIndicesRefresh w1)
             else (Ok {| del_ok := true; deleted_id := id |},
                   set_visible (es_docs w1) (sent CIndicesRefresh w1))
         | _, _ => (NotFound, sent (CDelete id) w)
         end.
Proof.
  unfold delete_document, bind, try_except, not_found, raise, ret, NotFound.
  rewrite es_delete_run.
  destruct (next_fails w); [reflexivity|].
  destruct (es_index w) as [mp|] eqn:Hi; [|reflexivity].
  destruct (es_docs w !! id); [|reflexivity].
  rewrite es_indices_refresh_run. simpl.
  match goal with |- context [next_fails ?x] => destruct (next_fails x) end;
    [reflexivity|].
  rewrite Hi. reflexivity.
Qed.

Lemma update_document_run (cfg : Config) (id : string) (req : UpdateRequest)
    (w : World) :
  update_document cfg id req w
  = if next_fails w then (NotFound, sent (CGet id) w)
    else match es_index w, es_docs w !! id with
         | Some _, Some cur =>
             match embed cfg (effective_text req cur) (sent (CGet id) w) with
             | (Raise e, w2) => (Raise e, w2)
             | (Ok vec, w2) =>
                 let doc := {| src_text := effective_text req cur;
                               src_meta := Some (effective_meta req cur);
                               src_embedding := vec |} in
                 if next_fails w2
                 then (Raise EsConnectionError, sent (CIndex id doc) w2)
                 else
                   let w3 := set_docs (<[id := doc]> (es_docs w2))
                                      (sent (CIndex id doc) w2) in
                   if next_fails w3
                   then (Raise EsConnectionError, sent CIndicesRefresh w3)
                   else (Ok {| upd_ok := true; upd_id := id;
                               upd_text := effective_text req cur |},
                         set_visible (es_docs w3) (sent CIndicesRefresh w3))
             end
         | _, _ => (NotFound, sent (CGet id) w)
         end.
Proof.
  unfold update_document, bind, try_except, not_found, raise, ret, NotFound.
  rewrite es_get_run.
  destruct (next_fails w); [reflexivity|].
  destruct (es_index w) as [mp|] eqn:Hi; [|reflexivity].
  destruct (es_docs w !! id) as [cur|]; [|reflexivity].
  fold (effective_text req cur). fold (effective_meta req cur).
  pose proof (embed_frame cfg (effective_text req cur) (sent (CGet id) w))
    as Hfr.
  destruct (embed cfg (effective_text req cur) (sent (CGet id) w))
    as [[vec|e] w2]; [|reflexivity].
  simpl in Hfr. destruct Hfr as (_ & Hfi & _).
  rewrite es_index_doc_run.
  destruct (next_fails w2); [reflexivity|].
  rewrite Hfi, Hi. rewrite es_indices_refresh_run. simpl.
  match goal with |- context [next_fails ?x] => destruct (next_fails x) end;
    [reflexivity|].
  rewrite Hfi, Hi. reflexivity.
Qed.

(** The document "a" is stored and the server cannot be reached: delete
    and update answer NotFound, so NotFound is not only the answer for an
    id that does not exist, and the failure to reach the server is turned
    into NotFound. *)
Lemma not_found_for_stored_document :
  es_index Sample.w_down <> None
  /\ es_docs Sample.w_down !! "a"%string = Some Sample.doc_hello
  /\ ~ (fst (delete_document "a" Sample.w_down) = NotFound
        <-> es_docs Sample.w_down !! "a"%string = None)
  /\ ~ (fst (update_document Sample.cfg_fake "a"
               {| text := Some "x"%string; metadatos := None |}
               Sample.w_down) = NotFound
        <-> es_docs Sample.w_down !! "a"%string = None)
  /\ fst (delete_document "a" Sample.w_down) <> Raise EsConnectionError.
Proof.
  assert (Ha : es_docs Sample.w_down !! "a"%string = Some Sample.doc_hello)
    by reflexivity.
  split; [discriminate|]. split; [exact Ha|].
  split; [|split].
  - intros [H _]. rewrite Ha in H.
    specialize (H eq_refl). discriminate.
  - intros [H _]. rewrite Ha in H.
    specialize (H eq_refl). discriminate.
  - rewrite delete_document_run. simpl. discriminate.
Qed.

Lemma not_found_cases (cfg : Config) (id : string)
    (req : UpdateRequest) (w : World) :
  (es_docs w !! id = None ->
     fst (delete_document id w) = NotFound /\
     fst (update_document cfg id req w) = NotFound)
  /\ (fst (delete_document id w) = NotFound <-> first_call_fails id w)
  /\ (fst (update_document cfg id req w) = NotFound <-> first_call_fails id w)
  /\ (~ first_call_fails id w ->
      nth 1 (es_faults w) false = true ->
      fst (delete_document id w) = Raise EsConnectionError /\
      forall r, fst (update_document cfg id req w) = r ->
                r <> NotFound /\ forall resp, r <> Ok resp).
Proof.
  unfold first_call_fails.
  rewrite delete_document_run, update_document_run.
  destruct (next_fails w) eqn:Hf.
  { simpl. repeat split; auto; intros; try tauto.
    all: exfalso; tauto. }
  destruct (es_index w) as [mp|] eqn:Hi; cycle 1.
  { simpl. repeat split; auto; intros; try tauto.
    all: exfalso; tauto. }
  destruct (es_docs w !! id) as [cur|] eqn:Hd; cycle 1.
  { simpl. repeat split; auto; intros; try tauto.
    all: exfalso; tauto. }
  assert (Hno : ~ (false = true \/ Some mp = None \/ Some cur = None)).
  { intros [H|[H|H]]; discriminate. }
  pose proof (embed_frame cfg (effective_text req cur) (sent (CGet id) w))
    as Hfr.
  pose proof (embed_raises cfg (effective_text req cur) (sent (CGet id) w))
    as Hra.
  destruct (embed cfg (effective_text req cur) (sent (CGet id) w))
    as [[vec|e] w2].
  - simpl in Hfr. destruct Hfr as (Hff & _).
    assert (Hn2 : forall b, nth 1 (es_faults w) false = b ->
                            next_fails w2 = b).
    { intros b <-. unfold next_fails. rewrite Hff.
      destruct (es_faults w) as [|? [|? ?]]; reflexivity. }
    split; [discriminate|].
    split.
    { split; [|tauto]. simpl.
      match goal with |- context [next_fails ?x] => destruct (next_fails x) end;
        discriminate. }
    split.
    { split; [|tauto].
      destruct (next_fails w2); simpl; [discriminate|].
      match goal with |- context [next_fails ?x] => destruct (next_fails x) end;
        discriminate. }
    intros _ Hn. split.
    + simpl. unfold next_fails. simpl.
      destruct (es_faults w) as [|? [|? ?]]; simpl in *; try discriminate.
      subst. reflexivity.
    + intros r <-. rewrite (Hn2 true Hn). simpl.
      split; [discriminate|]. intros resp. discriminate.
  - split; [discriminate|].
    split.
    { split; [|tauto]. simpl.
      match goal with |- context [next_fails ?x] => destruct (next_fails x) end;
        discriminate. }
    split.
    { split; [|tauto]. simpl. intros H.
      destruct (Hra w2 e eq_refl) as [->|[d ->]]; discriminate. }
    intros _ Hn. split.
    + simpl. unfold next_fails. simpl.
      destruct (es_faults w) as [|? [|? ?]]; simpl in *; try discriminate.
      subst. reflexivity.
    + intros r <-. simpl. split.
      * destruct (Hra w2 e eq_refl) as [->|[d ->]]; discriminate.
      * intros resp. discriminate.
Qed.

(** The fault schedule seen from the later calls of an operation. *)
Lemma next_fails_second (w w' : World) :
  es_faults w' = tail (es_faults w) ->
  next_fails w' = nth 1 (es_faults w) false.
Proof.
  intros H. unfold next_fails. rewrite H.
  destruct (es_faults w) as [|a [|b r]]; reflexivity.
Qed.

Lemma next_fails_third (w w' : World) :
  es_faults w' = tail (tail (es_faults w)) ->
  next_fails w' = nth 2 (es_faults w) false.
Proof.
  intros H. unfold next_fails. rewrite H.
  destruct (es_faults w) as [|a [|b [|c r]]]; reflexivity.
Qed.

(** C5, as the code has it. Update and delete answer NotFound whenever
    the id does not exist (never a success that did nothing), and more
    generally exactly when their first call to the server, the get or the
    delete, does not go through for whatever reason: a server that cannot
    be reached at that call is answered as NotFound too. Once that call
    went through, a failure of a later step of the operation is the
    result of the operation as it is: a server that cannot be reached at
    the refresh of a delete, or at the index call or the refresh of an
    update, gives the connection error, and an embedding that fails gives
    its own error. *)
Theorem not_found_iff_first_call_fails (cfg : Config) (id : string)
    (req : UpdateRequest) (w : World) :
  (es_docs w !! id = None ->
     fst (delete_document id w) = NotFound /\
     fst (update_document cfg id req w) = NotFound)
  /\ (fst (delete_document id w) = NotFound <-> first_call_fails id w)
  /\ (fst (update_document cfg id req w) = NotFound <-> first_call_fails id w)
  /\ (~ first_call_fails id w ->
      nth 1 (es_faults w) false = true ->
      fst (delete_document id w) = Raise EsConnectionError)
  /\ (forall cur vec w2,
        ~ first_call_fails id w ->
        es_docs w !! id = Some cur ->
        embed cfg (effective_text req cur) (sent (CGet id) w) = (Ok vec, w2) ->
        nth 1 (es_faults w) false = true \/
        nth 2 (es_faults w) false = true ->
        fst (update_document cfg id req w) = Raise EsConnectionError)
  /\ (forall cur e w2,
        ~ first_call_fails id w ->
        es_docs w !! id = Some cur ->
        embed cfg (effective_text req cur) (sent (CGet id) w) = (Raise e, w2) ->
        update_document cfg id req w = (Raise e, w2)).
Proof.
  destruct (not_found_cases cfg id req w) as (H1 & H2 & H3 & H4).
  split; [exact H1|]. split; [exact H2|]. split; [exact H3|].
  split; [intros Hn Hf; apply (H4 Hn Hf)|].
  assert (Hgo : forall cur,
             ~ first_call_fails id w -> es_docs w !! id = Some cur ->
             next_fails w = false /\ exists mp, es_index w = Some mp).
  { intros cur Hn Hd. unfold first_call_fails in Hn. split.
    - destruct (next_fails w); [exfalso; auto|reflexivity].
    - destruct (es_index w) as [mp|]; [eauto|exfalso; auto]. }
  split.
  - intros cur vec w2 Hn Hd He Hf.
    destruct (Hgo cur Hn Hd) as (Hnf & mp & Hi).
    pose proof (embed_frame cfg (effective_text req cur) (sent (CGet id) w))
      as Hfr.
    rewrite update_document_run, Hnf, Hi, Hd, He. rewrite He in Hfr.
    simpl in Hfr. destruct Hfr as (Hff & _). cbv zeta.
    rewrite (next_fails_second w w2 Hff).
    destruct (nth 1 (es_faults w) false) eqn:E1; [reflexivity|].
    destruct Hf as [Hf|Hf]; [discriminate|].
    match goal with
    | |- context [next_fails ?x] =>
        rewrite (next_fails_third w x) by (simpl; rewrite Hff; reflexivity)
    end.
    rewrite Hf. reflexivity.
  - intros cur e w2 Hn Hd He.
    destruct (Hgo cur Hn Hd) as (Hnf & mp & Hi).
    rewrite update_document_run, Hnf, Hi, Hd, He. reflexivity.
Qed.

Lemma not_found_iff_first_call_fails_witness :
  fst (delete_document "zz" Sample.w_two) = NotFound
  /\ fst (delete_document "a" (set_faults [false; true] Sample.w_two))
     = Raise EsConnectionError
  /\ fst (update_document Sample.cfg_fake "a"
            {| text := None; metadatos := None |}
            (set_faults [false; false; true] Sample.w_two))
     = Raise EsConnectionError.
Proof.
  pose proof (not_found_iff_first_call_fails Sample.cfg_fake "zz"
                {| text := None; metadatos := None |} Sample.w_two)
    as (H1 & _).
  pose proof (not_found_iff_first_call_fails Sample.cfg_fake "a"
                {| text := None; metadatos := None |}
                (set_faults [false; true] Sample.w_two))
    as (_ & _ & _ & H4 & _).
  pose proof (not_found_iff_first_call_fails Sample.cfg_fake "a"
                {| text := None; metadatos := None |}
                (set_faults [false; false; true] Sample.w_two))
    as (_ & _ & _ & _ & H5 & _).
  split; [apply H1; reflexivity|]. split.
  - apply H4; [|reflexivity].
    intros [H|[H|H]]; discriminate.
  - apply (H5 Sample.doc_hello
             (fake_embed Sample.cfg_fake "hello world")
             (sent (CGet "a") (set_faults [false; false; true] Sample.w_two))).
    + intros [H|[H|H]]; discriminate.
    + reflexivity.
    + apply embed_fake. discriminate.
    + right. reflexivity.
Defined.

(** ** Properties of the search endpoints *)

Section SearchRuns.

Variable cfg : Config.
Variable rank : gmap string Source -> SearchBody -> list Hit.

Lemma search_lexical_run (req : SearchRequest) (w : World) :
  search_lexical rank req w
  = search_answer rank "lexical" (lexical_body req) w.
Proof.
  unfold search_lexical, search_answer, bind, ret.
  fold (lexical_body req). rewrite es_search_run.
  destruct (next_fails w); [reflexivity|].
  destruct (es_index w); reflexivity.
Qed.

Lemma search_semantic_run (req : SearchRequest) (w : World) :
  search_semantic cfg rank req w
  = match embed cfg (query req) w with
    | (Ok qvec, w1) => search_answer rank "semantic" (semantic_body req qvec) w1
    | (Raise e, w1) => (Raise e, w1)
    end.
Proof.
  unfold search_semantic, search_answer, bind, ret.
  destruct (embed cfg (query req) w) as [[qvec|e] w1]; [|reflexivity].
  unfold knn_clause. fold (semantic_body req qvec). rewrite es_search_run.
  destruct (next_fails w1); [reflexivity|].
  destruct (es_index w1); reflexivity.
Qed.

Lemma search_hybrid_run (req : SearchRequest) (w : World) :
  search_hybrid cfg rank req w
  = match embed cfg (query req) w with
    | (Ok qvec, w1) => search_answer rank "hybrid" (hybrid_body req qvec) w1
    | (Raise e, w1) => (Raise e, w1)
    end.
Proof.
  unfold search_hybrid, search_answer, bind, ret.
  destruct (embed cfg (query req) w) as [[qvec|e] w1]; [|reflexivity].
  unfold knn_clause. fold (hybrid_body req qvec). rewrite es_search_run.
  destruct (next_fails w1); [reflexivity|].
  destruct (es_index w1); reflexivity.
Qed.

End SearchRuns.


(** Each result is made of its hit, position by position. *)
Lemma hit_result_ties (l : list Hit) :
  Forall2 result_of_hit (map hit_result l) l.
Proof.
  induction l as [|h l IH]; simpl; constructor; [|exact IH].
  unfold result_of_hit, hit_result. simpl.
  destruct (src_meta (hit_source h)); auto.
Qed.

Lemma sample_rank_size (docs : gmap string Source) (body : SearchBody) :
  (length (Sample.es_rank docs body) <= Z.to_nat (sb_size body))%nat.
Proof. unfold Sample.es_rank. rewrite length_firstn. lia. Qed.


(** C7. Once the query is embedded, hybrid search sends exactly one
    request to the server: a search whose query is a boolean query with
    the lexical match as its only clause, a "should" clause, and whose
    nearest-neighbour clause is the one semantic search sends for the same
    request. The answer is the server's hits, mapped one by one in the
    order received: the service drops none of them and does no ranking of
    its own. *)
Theorem hybrid_single_request (cfg : Config)
    (rank : gmap string Source -> SearchBody -> list Hit)
    (req : SearchRequest) (w w1 : World) (qvec : list float) :
  embed cfg (query req) w = (Ok qvec, w1) ->
  let body := hybrid_body req qvec in
  es_log (snd (search_hybrid cfg rank req w)) = es_log w ++ [CSearch body]
  /\ sb_query body = Some (QBoolShould [QMatch "text" (query req)])
  /\ (exists body_sem,
        es_log (snd (search_semantic cfg rank req w))
        = es_log w ++ [CSearch body_sem]
        /\ sb_query body_sem = None
        /\ sb_knn body_sem = sb_knn body)
  /\ (forall resp,
        fst (search_hybrid cfg rank req w) = Ok resp ->
        results resp = map hit_result (rank (es_visible w) body))
  /\ es_docs (snd (search_hybrid cfg rank req w)) = es_docs w.
Proof.
  intros He body.
  pose proof (embed_frame cfg (query req) w) as Hfr.
  rewrite search_hybrid_run, search_semantic_run, He in *.
  simpl in Hfr. destruct Hfr as (_ & _ & Hd & Hv & Hl & _).
  unfold search_answer; simpl. rewrite Hl, Hv.
  split; [reflexivity|]. split; [reflexivity|].
  split; [exists (semantic_body req qvec); auto|].
  split; [|exact Hd].
  intros resp.
  destruct (next_fails w1); [discriminate|].
  destruct (es_index w1); [|discriminate].
  intros H. inversion H. reflexivity.
Qed.

Lemma hybrid_single_request_witness :
  es_log (snd (search_hybrid Sample.cfg_fake Sample.es_rank
                 {| query := "hello"; top_k := 1 |} Sample.w_two))
  = [CSearch (hybrid_body {| query := "hello"; top_k := 1 |}
                (fake_embed Sample.cfg_fake "hello"))].
Proof.
  apply (hybrid_single_request Sample.cfg_fake Sample.es_rank
           {| query := "hello"; top_k := 1 |} Sample.w_two Sample.w_two
           (fake_embed Sample.cfg_fake "hello")).
  apply embed_fake. discriminate.
Defined.



(** No index on the server: each search sends its request all the same,
    without asking whether the index exists and without creating it, and
    the server answers that there is no such index. *)
Lemma search_without_schema :
  let req := {| query := "hello"; top_k := 5 |} in
  let qv := fake_embed Sample.cfg_fake "hello" in
  es_index Sample.w_empty = None
  /\ search_lexical Sample.es_rank req Sample.w_empty
     = (Raise EsNotFoundError, sent (CSearch (lexical_body req)) Sample.w_empty)
  /\ search_semantic Sample.cfg_fake Sample.es_rank req Sample.w_empty
     = (Raise EsNotFoundError,
        sent (CSearch (semantic_body req qv)) Sample.w_empty)
  /\ search_hybrid Sample.cfg_fake Sample.es_rank req Sample.w_empty
     = (Raise EsNotFoundError,
        sent (CSearch (hybrid_body req qv)) Sample.w_empty)
  /\ es_log (sent (CSearch (lexical_body req)) Sample.w_empty)
     = [CSearch (lexical_body req)]
  /\ es_index (sent (CSearch (lexical_body req)) Sample.w_empty) = None.
Proof.
  intros req qv.
  rewrite search_lexical_run, search_semantic_run, search_hybrid_run.
  rewrite embed_fake by discriminate.
  repeat split; reflexivity.
Qed.

(** ** Properties of ingest *)

Lemma store_all_notin (l : list string) (docs : list Source)
    (m : gmap string Source) (k : string) :
  k ∉ l -> store_all l docs m !! k = m !! k.
Proof.
  unfold store_all. revert docs m.
  induction l as [|id l IH]; intros docs m Hk; [reflexivity|].
  destruct docs as [|d docs]; [reflexivity|]. simpl.
  apply not_elem_of_cons in Hk. destruct Hk as [Hne Hk].
  rewrite IH by exact Hk. apply lookup_insert_ne. congruence.
Qed.

Lemma store_all_lookup (l : list string) (docs : list Source)
    (m : gmap string Source) (i : nat) (id : string) (d : Source) :
  NoDup l -> l !! i = Some id -> docs !! i = Some d ->
  store_all l docs m !! id = Some d.
Proof.
  revert docs m i.
  induction l as [|id0 l IH]; intros docs m i Hnd Hi Hd; [discriminate|].
  destruct docs as [|d0 docs]; [discriminate|].
  apply NoDup_cons in Hnd. destruct Hnd as [Hnotin Hnd].
  destruct i as [|i]; simpl in Hi, Hd.
  - inversion Hi; inversion Hd; subst.
    change (store_all (id :: l) (d :: docs) m)
      with (store_all l docs (<[id := d]> m)).
    rewrite store_all_notin by exact Hnotin. apply lookup_insert_eq.
  - change (store_all (id0 :: l) (d0 :: docs) m)
      with (store_all l docs (<[id0 := d0]> m)).
    eapply IH; eassumption.
Qed.

Section IngestRuns.

Variable cfg : Config.
Variable uuid4_nth : nat -> string.

Lemma ingest_one_run (meta : json_obj) (t : string) (w : World) :
  ingest_one cfg uuid4_nth meta t w
  = let id := uuid4_nth (uuid_drawn w) in
    match embed cfg t (set_uuid_drawn (S (uuid_drawn w)) w) with
    | (Raise e, w1) => (Raise e, w1)
    | (Ok vec, w1) =>
        let doc := new_doc meta t vec in
        if next_fails w1
        then (Raise EsConnectionError, sent (CIndex id doc) w1)
        else (Ok id,
              set_docs (<[id := doc]> (es_docs w1))
                match es_index w1 with
                | Some _ => sent (CIndex id doc) w1
                | None => set_index (Some []) (sent (CIndex id doc) w1)
                end)
    end.
Proof.
  unfold ingest_one, uuid4, bind, ret. simpl.
  destruct (embed cfg t (set_uuid_drawn (S (uuid_drawn w)) w))
    as [[vec|e] w1]; [|reflexivity].
  fold (new_doc meta t vec). rewrite es_index_doc_run.
  destruct (next_fails w1); reflexivity.
Qed.

Lemma ingest_one_ok (meta : json_obj) (t : string) (w w' : World)
    (id : string) :
  ingest_one cfg uuid4_nth meta t w = (Ok id, w') ->
  id = uuid4_nth (uuid_drawn w) /\
  exists vec,
    embedded cfg t vec /\
    es_docs w' = <[id := new_doc meta t vec]> (es_docs w) /\
    es_log w' = es_log w ++ [CIndex id (new_doc meta t vec)] /\
    uuid_drawn w' = S (uuid_drawn w) /\
    es_visible w' = es_visible w /\
    (es_index w <> None -> es_index w' = es_index w).
Proof.
  rewrite ingest_one_run.
  pose proof (embed_frame cfg t (set_uuid_drawn (S (uuid_drawn w)) w)) as Hfr.
  destruct (embed cfg t (set_uuid_drawn (S (uuid_drawn w)) w))
    as [[vec|e] w1] eqn:He; [|discriminate].
  simpl in Hfr. destruct Hfr as (_ & Hi & Hd & Hv & Hl & Hu).
  simpl. destruct (next_fails w1); [discriminate|].
  intros H. inversion H; subst; clear H.
  split; [reflexivity|]. exists vec.
  split; [eexists _, _; exact He|].
  destruct (es_index w1) eqn:E; simpl; rewrite ?Hd, ?Hl, ?Hv, ?Hu;
    repeat (split; [reflexivity|]); intros Hne; congruence.
Qed.

Lemma ingest_one_raises (meta : json_obj) (t : string) (w w' : World)
    (e : exn) :
  ingest_one cfg uuid4_nth meta t w = (Raise e, w') ->
  es_docs w' = es_docs w /\ es_index w' = es_index w /\
  es_visible w' = es_visible w /\
  ((exists wa, embed cfg t wa = (Raise e, w')) \/
   (e = EsConnectionError /\ exists vec, embedded cfg t vec)).
Proof.
  rewrite ingest_one_run.
  pose proof (embed_frame cfg t (set_uuid_drawn (S (uuid_drawn w)) w)) as Hfr.
  destruct (embed cfg t (set_uuid_drawn (S (uuid_drawn w)) w))
    as [[vec|e'] w1] eqn:He.
  - simpl in Hfr. destruct Hfr as (_ & Hi & Hd & Hv & _).
    simpl. destruct (next_fails w1); [|discriminate].
    intros H. inversion H; subst; clear H. simpl.
    repeat split; try assumption.
    right. split; [reflexivity|]. exists vec. eexists _, _; exact He.
  - simpl in Hfr. destruct Hfr as (_ & Hi & Hd & Hv & _).
    intros H. inversion H; subst; clear H.
    repeat split; try assumption. left. eauto.
Qed.

Lemma ingest_loop_app (meta : json_obj) (a b : list string)
    (acc : list string) (w : World) :
  ingest_loop cfg uuid4_nth meta (a ++ b) acc w
  = match ingest_loop cfg uuid4_nth meta a acc w with
    | (Ok l, w1) => ingest_loop cfg uuid4_nth meta b l w1
    | (Raise e, w1) => (Raise e, w1)
    end.
Proof.
  revert acc w. induction a as [|t a IH]; intros acc w; [reflexivity|].
  simpl. unfold bind.
  destruct (ingest_one cfg uuid4_nth meta t w) as [[id|e] w1];
    [apply IH|reflexivity].
Qed.

Lemma ingest_loop_ok (meta : json_obj) (ts : list string) :
  forall (acc : list string) (w w' : World) (l : list string),
  ingest_loop cfg uuid4_nth meta ts acc w = (Ok l, w') ->
  exists vecs,
    let new_ids := map uuid4_nth (seq (uuid_drawn w) (length ts)) in
    let docs := zip_with (new_doc meta) ts vecs in
    Forall2 (embedded cfg) ts vecs /\
    l = acc ++ new_ids /\
    es_docs w' = store_all new_ids docs (es_docs w) /\
    es_log w' = es_log w ++ zip_with CIndex new_ids docs /\
    uuid_drawn w' = (uuid_drawn w + length ts)%nat /\
    es_visible w' = es_visible w /\
    (es_index w <> None -> es_index w' = es_index w).
Proof.
  induction ts as [|t ts IH]; intros acc w w' l H; simpl in H.
  - inversion H; subst; clear H. exists []. simpl.
    rewrite !app_nil_r, Nat.add_0_r. repeat split; auto.
  - unfold bind in H.
    destruct (ingest_one cfg uuid4_nth meta t w) as [[id|e] w1] eqn:H1;
      [|discriminate].
    apply ingest_one_ok in H1.
    destruct H1 as (-> & vec & Hemb & Hd1 & Hl1 & Hu1 & Hv1 & Hi1).
    apply IH in H.
    destruct H as (vecs & Hf & -> & Hd & Hl & Hu & Hv & Hi).
    exists (vec :: vecs). cbn zeta in *.
    rewrite Hu1 in *. simpl.
    split; [constructor; assumption|].
    split; [rewrite <- app_assoc; reflexivity|].
    split; [rewrite Hd, Hd1; reflexivity|].
    split; [rewrite Hl, Hl1, <- app_assoc; reflexivity|].
    split; [lia|].
    split; [congruence|].
    intros Hne. rewrite Hi; rewrite Hi1; auto.
Qed.

End IngestRuns.

(** *** The vectors of a batch *)

(** What [embed] answers depends on the world only through the answers
    the embeddings service is about to give. *)
Lemma embed_depends_on_replies (cfg : Config) (t : string) (wa wb : World) :
  openai_replies wa = openai_replies wb ->
  fst (embed cfg t wa) = fst (embed cfg t wb) /\
  openai_replies (snd (embed cfg t wa)) = openai_replies (snd (embed cfg t wb)).
Proof.
  intros H.
  unfold embed, openai_embed, openai_embeddings_create, bind, raise, ret.
  destruct (String.eqb (EMBEDDING_PROVIDER cfg) "openai"); [|simpl; auto].
  destruct (String.eqb (OPENAI_API_KEY cfg) ""); [simpl; auto|].
  rewrite H.
  destruct (openai_replies wb) as [|[vec|] rest]; simpl; auto.
  destruct (negb (Z.of_nat (length vec) =? EMBEDDING_DIM cfg)); simpl; auto.
Qed.

Lemma embed_each_depends_on_replies (cfg : Config) (ts : list string) :
  forall wa wb,
    openai_replies wa = openai_replies wb ->
    fst (embed_each cfg ts wa) = fst (embed_each cfg ts wb).
Proof.
  induction ts as [|t ts IH]; intros wa wb H; [reflexivity|].
  simpl. unfold bind.
  destruct (embed_depends_on_replies cfg t wa wb H) as [Hf Hr].
  destruct (embed cfg t wa) as [[va|ea] wa'];
    destruct (embed cfg t wb) as [[vb|eb] wb']; simpl in Hf, Hr;
    try discriminate; [|inversion Hf; reflexivity].
  inversion Hf; subst vb.
  pose proof (IH wa' wb' Hr) as Hrest.
  destruct (embed_each cfg ts wa') as [[vsa|ea] wa''];
    destruct (embed_each cfg ts wb') as [[vsb|eb] wb'']; simpl in Hrest;
    try discriminate; simpl; congruence.
Qed.

Lemma embed_each_fake (cfg : Config) (ts : list string) (w : World) :
  EMBEDDING_PROVIDER cfg <> "openai"%string ->
  embed_each cfg ts w = (Ok (map (fake_embed cfg) ts), w).
Proof.
  intros Hp. induction ts as [|t ts IH]; [reflexivity|].
  simpl. unfold bind. rewrite embed_fake by exact Hp. rewrite IH. reflexivity.
Qed.

Lemma openai_embed_ok_replies (cfg : Config) (t : string) (w w' : World)
    (v : list float) :
  openai_embed cfg t w = (Ok v, w') ->
  openai_replies w = Some v :: openai_replies w'.
Proof.
  unfold openai_embed.
  destruct (String.eqb (OPENAI_API_KEY cfg) ""); [discriminate|].
  unfold bind, openai_embeddings_create, raise, ret.
  destruct (openai_replies w) as [|[vec|] rest] eqn:Hr; try discriminate.
  destruct (negb (Z.of_nat (length vec) =? EMBEDDING_DIM cfg));
    [discriminate|].
  intros H. inversion H; subst. reflexivity.
Qed.

(** Under the external strategy the vectors are the answers of the
    service, in the order it gave them. *)
Lemma embed_each_openai (cfg : Config) (ts : list string) :
  EMBEDDING_PROVIDER cfg = "openai"%string ->
  forall w vecs,
    fst (embed_each cfg ts w) = Ok vecs ->
    map Some vecs = firstn (length ts) (openai_replies w).
Proof.
  intros Hp. induction ts as [|t ts IH]; intros w vecs H.
  - inversion H. reflexivity.
  - simpl in H. unfold bind in H.
    destruct (embed cfg t w) as [[v|e] w1] eqn:He; [|discriminate].
    unfold embed in He. rewrite Hp in He. simpl in He.
    apply openai_embed_ok_replies in He.
    specialize (IH w1).
    destruct (embed_each cfg ts w1) as [[vs|e] w2]; [|discriminate].
    simpl in H. inversion H; subst vecs.
    rewrite He. simpl. f_equal. apply IH. reflexivity.
Qed.

Lemma ensure_index_replies (cfg : Config) (w : World) :
  openai_replies (snd (ensure_index cfg w)) = openai_replies w.
Proof.
  rewrite ensure_index_run.
  destruct (next_fails w); [reflexivity|].
  destruct (es_index w); [reflexivity|]. cbv zeta.
  destruct (next_fails (sent CIndicesExists w)); reflexivity.
Qed.

Section IngestVectors.

Variable cfg : Config.
Variable uuid4_nth : nat -> string.

Lemma ingest_one_exact (meta : json_obj) (t : string) (w w' : World)
    (id : string) :
  ingest_one cfg uuid4_nth meta t w = (Ok id, w') ->
  exists vec,
    fst (embed cfg t w) = Ok vec /\
    openai_replies w' = openai_replies (snd (embed cfg t w)) /\
    id = uuid4_nth (uuid_drawn w) /\
    es_docs w' = <[id := new_doc meta t vec]> (es_docs w) /\
    es_log w' = es_log w ++ [CIndex id (new_doc meta t vec)] /\
    uuid_drawn w' = S (uuid_drawn w) /\
    es_visible w' = es_visible w /\
    (es_index w <> None -> es_index w' = es_index w).
Proof.
  rewrite ingest_one_run.
  pose proof (embed_frame cfg t (set_uuid_drawn (S (uuid_drawn w)) w)) as Hfr.
  destruct (embed_depends_on_replies cfg t
              (set_uuid_drawn (S (uuid_drawn w)) w) w eq_refl) as [Hf Hr].
  destruct (embed cfg t (set_uuid_drawn (S (uuid_drawn w)) w))
    as [[vec|e] w1] eqn:He; [|discriminate].
  simpl in Hfr, Hf, Hr. destruct Hfr as (_ & Hi & Hd & Hv & Hl & Hu).
  cbv zeta. destruct (next_fails w1); [discriminate|].
  intros H. inversion H; subst; clear H.
  exists vec. split; [symmetry; exact Hf|].
  destruct (es_index w1) eqn:E; simpl; rewrite ?Hd, ?Hl, ?Hv, ?Hu;
    (split; [exact Hr|]); repeat (split; [reflexivity|]);
    intros Hne; congruence.
Qed.

Lemma ingest_loop_exact (meta : json_obj) (ts : list string) :
  forall (acc : list string) (w w' : World) (l : list string),
  ingest_loop cfg uuid4_nth meta ts acc w = (Ok l, w') ->
  exists vecs,
    let new_ids := map uuid4_nth (seq (uuid_drawn w) (length ts)) in
    let docs := zip_with (new_doc meta) ts vecs in
    fst (embed_each cfg ts w) = Ok vecs /\
    length vecs = length ts /\
    l = acc ++ new_ids /\
    es_docs w' = store_all new_ids docs (es_docs w) /\
    es_log w' = es_log w ++ zip_with CIndex new_ids docs /\
    es_visible w' = es_visible w /\
    (es_index w <> None -> es_index w' = es_index w).
Proof.
  induction ts as [|t ts IH]; intros acc w w' l H; simpl in H.
  - inversion H; subst; clear H. exists []. simpl.
    rewrite !app_nil_r. repeat split; auto.
  - unfold bind in H.
    destruct (ingest_one cfg uuid4_nth meta t w) as [[id|e] w1] eqn:H1;
      [|discriminate].
    apply ingest_one_exact in H1.
    destruct H1 as (vec & Hf1 & Hr1 & -> & Hd1 & Hl1 & Hu1 & Hv1 & Hi1).
    apply IH in H.
    destruct H as (vecs & Hf & Hlen & -> & Hd & Hl & Hv & Hi).
    exists (vec :: vecs). cbv zeta in *.
    rewrite Hu1 in *. simpl.
    split.
    { unfold bind.
      destruct (embed cfg t w) as [[v|e] wx]; simpl in Hf1, Hr1;
        [|discriminate].
      inversion Hf1; subst v.
      pose proof (embed_each_depends_on_replies cfg ts wx w1
                    ltac:(congruence)) as Hdep.
      rewrite Hf in Hdep.
      destruct (embed_each cfg ts wx) as [[vs|e] wy]; simpl in Hdep;
        [|discriminate].
      inversion Hdep; subst vs. reflexivity. }
    split; [simpl; congruence|].
    split; [rewrite <- app_assoc; reflexivity|].
    split; [rewrite Hd, Hd1; reflexivity|].
    split; [rewrite Hl, Hl1, <- app_assoc; reflexivity|].
    split; [congruence|].
    intros Hne. rewrite Hi; rewrite Hi1; auto.
Qed.

End IngestVectors.

Lemma ensure_index_ok (cfg : Config) (w w0 : World) :
  ensure_index cfg w = (Ok tt, w0) ->
  es_index w0 <> None /\
  es_docs w0 = es_docs w /\
  es_visible w0 = es_visible w /\
  uuid_drawn w0 = uuid_drawn w /\
  (es_index w <> None -> es_index w0 = es_index w) /\
  (es_log w0 = es_log w ++ [CIndicesExists] \/
   es_log w0
   = es_log w ++ [CIndicesExists; CIndicesCreate (index_mapping cfg)]).
Proof.
  rewrite ensure_index_run.
  destruct (next_fails w); [discriminate|].
  destruct (es_index w) as [mp|] eqn:Hi.
  - intros H. inversion H; subst; clear H. simpl. rewrite Hi.
    split; [discriminate|]. do 3 (split; [reflexivity|]).
    split; [reflexivity|]. left; reflexivity.
  - cbv zeta.
    destruct (next_fails (sent CIndicesExists w)); [discriminate|].
    intros H. inversion H; subst; clear H. simpl.
    split; [discriminate|]. do 3 (split; [reflexivity|]).
    split; [intros Hne; contradiction|].
    right. rewrite <- app_assoc. reflexivity.
Qed.

Lemma ingest_run (cfg : Config) (uuid4_nth : nat -> string)
    (req : IngestRequest) (w : World) :
  ingest cfg uuid4_nth req w
  = match ensure_index cfg w with
    | (Raise e, w0) => (Raise e, w0)
    | (Ok _, w0) =>
        match ingest_loop cfg uuid4_nth (or_empty (ingest_metadatos req))
                (frases req) [] w0 with
        | (Raise e, w1) => (Raise e, w1)
        | (Ok l, w1) =>
            match es_indices_refresh w1 with
            | (Raise e, w2) => (Raise e, w2)
            | (Ok _, w2) =>
                (Ok {| ing_ok := true;
                       inserted_count := Z.of_nat (length l);
                       ids := l |}, w2)
            end
        end
    end.
Proof.
  unfold ingest, bind, ret.
  destruct (ensure_index cfg w) as [[u|e] w0]; [|reflexivity].
  destruct (ingest_loop cfg uuid4_nth (or_empty (ingest_metadatos req))
              (frases req) [] w0) as [[l|e] w1]; [|reflexivity].
  destruct (es_indices_refresh w1) as [[u'|e] w2]; reflexivity.
Qed.

(** Truthiness of the optional metadata: the value when given, the empty
    map otherwise. *)
Lemma or_empty_value (m : option json_obj) :
  or_empty m = match m with Some x => x | None => [] end.
Proof. destruct m as [[|kv r]|]; reflexivity. Qed.

(** C1. A successful ingest of the texts t1..tn returns exactly n ids,
    the i-th being the id drawn for ti, in input order; for each text it
    sent to the store, in that order, the document made of the text, the
    metadata of the call (the empty map when none was given) and the
    vector of that text, under that id. The vectors are what [embed]
    returns when called on t1..tn in turn from the state of the call:
    the local embedding of each text under the local strategy, the
    answers of the service in the order given under the external one.
    The same metadata value goes with every text; and, the ids being
    pairwise distinct, each id holds its document afterwards. *)
Theorem ingest_returns_ids (cfg : Config) (uuid4_nth : nat -> string)
    (req : IngestRequest) (w w' : World) (resp : IngestResponse) :
  ingest cfg uuid4_nth req w = (Ok resp, w') ->
  let ts := frases req in
  let meta := match ingest_metadatos req with Some m => m | None => [] end in
  exists vecs,
    let docs := zip_with (new_doc meta) ts vecs in
    length (ids resp) = length ts /\
    inserted_count resp = Z.of_nat (length ts) /\
    ids resp = map uuid4_nth (seq (uuid_drawn w) (length ts)) /\
    fst (embed_each cfg ts w) = Ok vecs /\
    length vecs = length ts /\
    (EMBEDDING_PROVIDER cfg <> "openai"%string ->
     vecs = map (fake_embed cfg) ts) /\
    (EMBEDDING_PROVIDER cfg = "openai"%string ->
     map Some vecs = firstn (length ts) (openai_replies w)) /\
    (exists pre,
       es_log w' = es_log w ++ pre ++ zip_with CIndex (ids resp) docs
                            ++ [CIndicesRefresh]
       /\ (pre = [CIndicesExists] \/
           pre = [CIndicesExists; CIndicesCreate (index_mapping cfg)])) /\
    es_docs w' = store_all (ids resp) docs (es_docs w) /\
    es_visible w' = es_docs w' /\
    (NoDup (ids resp) ->
     forall i id t v,
       ids resp !! i = Some id -> ts !! i = Some t -> vecs !! i = Some v ->
       es_docs w' !! id = Some (new_doc meta t v)).
Proof.
  intros H ts meta. rewrite ingest_run in H.
  pose proof (ensure_index_replies cfg w) as Hrep.
  destruct (ensure_index cfg w) as [[u|e] w0] eqn:He; [|discriminate].
  destruct u. simpl in Hrep. apply ensure_index_ok in He.
  destruct He as (Hi0 & Hd0 & Hv0 & Hu0 & _ & Hl0).
  rewrite or_empty_value in H. fold meta ts in H.
  destruct (ingest_loop cfg uuid4_nth meta ts [] w0) as [[l|e] w1] eqn:Hloop;
    [|discriminate].
  apply ingest_loop_exact in Hloop.
  destruct Hloop as (vecs & Hfe & Hlv & Hl & Hd & Hlog & Hv & Hi).
  cbv zeta in *. simpl in Hl. subst l.
  rewrite (embed_each_depends_on_replies cfg ts w0 w Hrep) in Hfe.
  rewrite es_indices_refresh_run in H.
  destruct (next_fails w1); [discriminate|].
  rewrite (Hi Hi0) in H.
  destruct (es_index w0) as [mp|] eqn:Hi0'; [|contradiction].
  inversion H; subst; clear H. simpl.
  exists vecs. rewrite Hu0 in *.
  assert (Hlen : length (map uuid4_nth (seq (uuid_drawn w) (length ts)))
                 = length ts) by (rewrite length_map, length_seq; reflexivity).
  split; [exact Hlen|]. split; [rewrite Hlen; reflexivity|].
  split; [reflexivity|]. split; [exact Hfe|]. split; [exact Hlv|].
  split.
  { intros Hp. rewrite embed_each_fake in Hfe by exact Hp.
    inversion Hfe. reflexivity. }
  split; [intros Hp; eapply embed_each_openai; eassumption|].
  split.
  { rewrite Hlog. destruct Hl0 as [->| ->]; eexists; split;
      [|left; reflexivity| |right; reflexivity];
      rewrite <- !app_assoc; reflexivity. }
  split; [rewrite Hd, Hd0; reflexivity|].
  split; [reflexivity|].
  intros Hnd i id t v Hid Ht Hvv.
  rewrite Hd, Hd0. eapply store_all_lookup; [exact Hnd|exact Hid|].
  rewrite lookup_zip_with, Ht. simpl. rewrite Hvv. reflexivity.
Qed.

Lemma run_result {A} (p : Result A * World) (r : Result A) :
  fst p = r -> p = (r, snd p).
Proof. intros <-. destruct p; reflexivity. Qed.

Lemma sample_ingest_result :
  fst (ingest Sample.cfg_fake Sample.uuid4_nth
         {| frases := ["hello world"; "bare"]%string;
            ingest_metadatos := Some [("lang"%string, JStr "en")] |}
         Sample.w_empty)
  = Ok {| ing_ok := true; inserted_count := 2; ids := ["x"; "xx"]%string |}.
Proof. lazy. reflexivity. Qed.

Lemma ingest_returns_ids_witness :
  exists w',
    ingest Sample.cfg_fake Sample.uuid4_nth
      {| frases := ["hello world"; "bare"]%string;
         ingest_metadatos := Some [("lang"%string, JStr "en")] |}
      Sample.w_empty
    = (Ok {| ing_ok := true; inserted_count := 2; ids := ["x"; "xx"]%string |},
       w')
    /\ es_docs w' !! "xx"%string
       = Some (new_doc [("lang"%string, JStr "en")] "bare"
                 (fake_embed Sample.cfg_fake "bare")).
Proof.
  pose proof (run_result _ _ sample_ingest_result) as Hrun.
  eexists. split; [exact Hrun|].
  destruct (ingest_returns_ids _ _ _ _ _ _ Hrun)
    as (vecs & _ & _ & _ & _ & _ & Hfake & _ & _ & _ & _ & Hget).
  rewrite (Hfake ltac:(discriminate)) in Hget.
  assert (Hnd : NoDup ["x"; "xx"]%string).
  { apply NoDup_cons. split; [|apply NoDup_singleton].
    intros H. apply list_elem_of_singleton in H. discriminate. }
  exact (Hget Hnd 1%nat "xx"%string "bare"%string
           (fake_embed Sample.cfg_fake "bare") eq_refl eq_refl eq_refl).
Defined.

(** C9. When the i-th text of a batch fails, at its embedding or at its
    store call, after the texts before it went through: the failure is the
    result of the whole ingest; the store holds what it held before the
    call plus the documents of the texts before i, each under its id; it
    holds nothing more, so no document of the i-th or a later text; and
    nothing of the earlier documents is taken back. *)
Theorem ingest_failure_keeps_earlier (cfg : Config)
    (uuid4_nth : nat -> string) (req : IngestRequest)
    (pre post : list string) (t : string) (l : list string) (e : exn)
    (w w0 w1 w2 : World) :
  let meta := or_empty (ingest_metadatos req) in
  frases req = pre ++ t :: post ->
  ensure_index cfg w = (Ok tt, w0) ->
  ingest_loop cfg uuid4_nth meta pre [] w0 = (Ok l, w1) ->
  ingest_one cfg uuid4_nth meta t w1 = (Raise e, w2) ->
  ingest cfg uuid4_nth req w = (Raise e, w2)
  /\ ((exists wa, embed cfg t wa = (Raise e, w2)) \/ e = EsConnectionError)
  /\ exists vecs,
       let docs := zip_with (new_doc meta) pre vecs in
       Forall2 (embedded cfg) pre vecs /\
       l = map uuid4_nth (seq (uuid_drawn w) (length pre)) /\
       es_docs w2 = store_all l docs (es_docs w) /\
       (forall k, k ∉ l -> es_docs w2 !! k = es_docs w !! k) /\
       (NoDup l ->
        forall i id d, l !! i = Some id -> docs !! i = Some d ->
                       es_docs w2 !! id = Some d).
Proof.
  intros meta Hts He Hloop Hone.
  split.
  { rewrite ingest_run, He, Hts. fold meta. rewrite ingest_loop_app, Hloop.
    simpl. unfold bind. rewrite Hone. reflexivity. }
  apply ensure_index_ok in He.
  destruct He as (_ & Hd0 & _ & Hu0 & _).
  apply ingest_loop_ok in Hloop.
  destruct Hloop as (vecs & Hf & Hl & Hd & _).
  apply ingest_one_raises in Hone.
  destruct Hone as (Hd2 & _ & _ & Hcause).
  split; [destruct Hcause as [?|[? _]]; auto|].
  cbv zeta in *. simpl in Hl. rewrite Hu0 in *. rewrite Hd0 in Hd.
  exists vecs. rewrite Hd2, Hd. subst l.
  split; [exact Hf|]. split; [reflexivity|]. split; [reflexivity|].
  split.
  - intros k Hk. apply store_all_notin. exact Hk.
  - intros Hnd i id d Hi Hdoc. eapply store_all_lookup; eassumption.
Qed.

Lemma sample_batch_ensure :
  fst (ensure_index Sample.cfg_fake w_fourth_fails) = Ok tt.
Proof. lazy. reflexivity. Qed.

Lemma sample_batch_first :
  fst (ingest_loop Sample.cfg_fake Sample.uuid4_nth []
         ["hello world"%string] [] w_after_ensure) = Ok ["x"%string].
Proof. lazy. reflexivity. Qed.

Lemma sample_batch_second :
  fst (ingest_one Sample.cfg_fake Sample.uuid4_nth [] "bare" w_after_first)
  = Raise EsConnectionError.
Proof. lazy. reflexivity. Qed.

Lemma ingest_failure_keeps_earlier_witness :
  let r := ingest Sample.cfg_fake Sample.uuid4_nth sample_batch
             w_fourth_fails in
  fst r = Raise EsConnectionError
  /\ es_docs (snd r) !! "x"%string
     = Some (new_doc [] "hello world"
               (fake_embed Sample.cfg_fake "hello world"))
  /\ es_docs (snd r) !! "xx"%string = None.
Proof.
  intros r. subst r.
  destruct (ingest_failure_keeps_earlier Sample.cfg_fake Sample.uuid4_nth
              sample_batch ["hello world"%string] ["later"%string] "bare"
              ["x"%string] EsConnectionError
              w_fourth_fails w_after_ensure w_after_first w_after_second
              eq_refl
              (run_result _ _ sample_batch_ensure)
              (run_result _ _ sample_batch_first)
              (run_result _ _ sample_batch_second))
    as (Hr & _ & vecs & Hf & _ & _ & Hout & Hin).
  rewrite Hr. cbn [fst snd].
  split; [reflexivity|]. split.
  - inversion Hf as [|? v ? vs Hv Hrest]; subst.
    inversion Hrest; subst.
    destruct Hv as (wa & wb & Hv). rewrite embed_fake in Hv by discriminate.
    inversion Hv; subst.
    apply (Hin (NoDup_singleton _) 0%nat); reflexivity.
  - rewrite Hout; [reflexivity|].
    intros H. apply list_elem_of_singleton in H. discriminate.
Defined.

(** ** The schema *)

Lemma log_extends_refl (w : World) : log_extends w w.
Proof. exists []. rewrite app_nil_r. reflexivity. Qed.

Lemma log_extends_trans (w1 w2 w3 : World) :
  log_extends w1 w2 -> log_extends w2 w3 -> log_extends w1 w3.
Proof.
  intros [l1 H1] [l2 H2]. exists (l1 ++ l2).
  rewrite H2, H1, app_assoc. reflexivity.
Qed.

Lemma ingest_one_log (cfg : Config) (uuid4_nth : nat -> string)
    (meta : json_obj) (t : string) (w : World) :
  log_extends w (snd (ingest_one cfg uuid4_nth meta t w)).
Proof.
  rewrite ingest_one_run.
  pose proof (embed_frame cfg t (set_uuid_drawn (S (uuid_drawn w)) w)) as Hfr.
  destruct (embed cfg t (set_uuid_drawn (S (uuid_drawn w)) w))
    as [[vec|e] w1]; simpl in Hfr; destruct Hfr as (_ & _ & _ & _ & Hl & _).
  - cbv zeta. destruct (next_fails w1).
    + eexists. simpl. rewrite Hl. reflexivity.
    + destruct (es_index w1); eexists; simpl; rewrite Hl; reflexivity.
  - exists []. simpl. rewrite Hl, app_nil_r. reflexivity.
Qed.

Lemma ingest_loop_log (cfg : Config) (uuid4_nth : nat -> string)
    (meta : json_obj) (ts : list string) :
  forall acc w,
    log_extends w (snd (ingest_loop cfg uuid4_nth meta ts acc w)).
Proof.
  induction ts as [|t ts IH]; intros acc w; simpl.
  - apply log_extends_refl.
  - unfold bind.
    pose proof (ingest_one_log cfg uuid4_nth meta t w) as H1.
    destruct (ingest_one cfg uuid4_nth meta t w) as [[id|e] w1]; simpl in H1.
    + eapply log_extends_trans; [exact H1|apply IH].
    + exact H1.
Qed.

Lemma refresh_log (w : World) :
  log_extends w (snd (es_indices_refresh w)).
Proof.
  rewrite es_indices_refresh_run.
  destruct (next_fails w); [|destruct (es_index w)];
    eexists; simpl; reflexivity.
Qed.

Lemma ensure_index_log (cfg : Config) (w : World) :
  exists rest,
    es_log (snd (ensure_index cfg w)) = es_log w ++ CIndicesExists :: rest.
Proof.
  rewrite ensure_index_run.
  destruct (next_fails w); [eexists; reflexivity|].
  destruct (es_index w); [eexists; reflexivity|]. cbv zeta.
  destruct (next_fails (sent CIndicesExists w)); simpl; eexists;
    rewrite <- app_assoc; reflexivity.
Qed.

Lemma startup_run (cfg : Config) (w : World) :
  startup cfg w
  = if next_fails w then (Raise RuntimeError, sent CPing w)
    else ensure_index cfg (sent CPing w).
Proof.
  unfold startup, es_ping, try_except, bind, ret, raise.
  rewrite es_call_run. destruct (next_fails w); reflexivity.
Qed.

Lemma schema_cases (cfg : Config) (uuid4_nth : nat -> string)
    (rank : gmap string Source -> SearchBody -> list Hit) (w : World) :
  (forall req, exists rest,
      es_log (snd (ingest cfg uuid4_nth req w))
      = es_log w ++ CIndicesExists :: rest)
  /\ (forall req e w0,
        ensure_index cfg w = (Raise e, w0) ->
        ingest cfg uuid4_nth req w = (Raise e, w0))
  /\ (forall w0, ensure_index cfg w = (Ok tt, w0) -> es_index w0 <> None)
  /\ (forall req,
        let w' := snd (search_lexical rank req w) in
        es_log w' = es_log w ++ [CSearch (lexical_body req)] /\
        es_index w' = es_index w)
  /\ (forall req qvec w1,
        embed cfg (query req) w = (Ok qvec, w1) ->
        let ws := snd (search_semantic cfg rank req w) in
        let wh := snd (search_hybrid cfg rank req w) in
        es_log ws = es_log w ++ [CSearch (semantic_body req qvec)] /\
        es_index ws = es_index w /\
        es_log wh = es_log w ++ [CSearch (hybrid_body req qvec)] /\
        es_index wh = es_index w)
  /\ (forall req,
        es_index w = None -> next_fails w = false ->
        fst (search_lexical rank req w) = Raise EsNotFoundError)
  /\ (forall w1 r w2,
        ensure_index cfg w = (Ok tt, w1) ->
        ensure_index cfg w1 = (r, w2) ->
        es_index w2 = es_index w1 /\ es_docs w2 = es_docs w1 /\
        es_visible w2 = es_visible w1 /\
        es_log w2 = es_log w1 ++ [CIndicesExists] /\
        (next_fails w1 = false -> r = Ok tt)).
Proof.
  split.
  { intros req. rewrite ingest_run.
    destruct (ensure_index_log cfg w) as [rest Hrest].
    destruct (ensure_index cfg w) as [[u|e] w0]; simpl in Hrest;
      [|eexists; exact Hrest].
    pose proof (ingest_loop_log cfg uuid4_nth
                  (or_empty (ingest_metadatos req)) (frases req) [] w0)
      as [l1 H1].
    destruct (ingest_loop cfg uuid4_nth (or_empty (ingest_metadatos req))
                (frases req) [] w0) as [[l|e] w1]; simpl in H1.
    - pose proof (refresh_log w1) as [l2 H2].
      destruct (es_indices_refresh w1) as [[u'|e] w2]; simpl in *;
        rewrite H2, H1, Hrest; eexists; rewrite <- !app_assoc; reflexivity.
    - simpl. rewrite H1, Hrest. eexists. rewrite <- !app_assoc. reflexivity. }
  split.
  { intros req e w0 He. rewrite ingest_run, He. reflexivity. }
  split.
  { intros w0 He. apply ensure_index_ok in He. tauto. }
  split.
  { intros req. rewrite search_lexical_run. simpl. auto. }
  split.
  { intros req qvec w1 He.
    pose proof (embed_frame cfg (query req) w) as Hfr.
    rewrite search_semantic_run, search_hybrid_run, He in *.
    simpl in *. destruct Hfr as (_ & Hi & _ & _ & Hl & _).
    rewrite Hl, Hi. auto. }
  split.
  { intros req Hi Hf. rewrite search_lexical_run. unfold search_answer.
    rewrite Hi, Hf. reflexivity. }
  intros w1 r w2 H1 H2. apply ensure_index_ok in H1.
  destruct H1 as (Hi1 & _).
  rewrite ensure_index_run in H2.
  destruct (es_index w1) as [mp|] eqn:E; [|contradiction].
  destruct (next_fails w1); inversion H2; subst; simpl; rewrite E;
    repeat split; auto; discriminate.
Qed.

Lemma create_index_run (cfg : Config) (w : World) :
  create_index cfg w
  = match ensure_index cfg w with
    | (Ok _, w0) =>
        (Ok {| ci_ok := true; ci_index := INDEX_NAME cfg;
               ci_dim := EMBEDDING_DIM cfg |}, w0)
    | (Raise e, w0) => (Raise e, w0)
    end.
Proof.
  unfold create_index, bind, ret.
  destruct (ensure_index cfg w) as [[u|e] w0]; reflexivity.
Qed.

(** C6, as the code has it. Ingest first makes sure the schema exists:
    its first call asks the server whether the index is there, it stops
    when that step fails, and the index exists when the step is done. So
    do the creation endpoint, which is that step and nothing more, and
    startup, which is that step once the server answered the ping. The
    three searches do not: each sends its one search request straight
    away and leaves the index as it finds it, so that over a server
    without the index each of the three fails with the server's
    not-found error. Making sure the schema exists is safe to repeat:
    after a first success, doing it again only asks the server whether
    the index is there and changes nothing. *)
Theorem schema_ensured_by_ingest (cfg : Config) (uuid4_nth : nat -> string)
    (rank : gmap string Source -> SearchBody -> list Hit) (w : World) :
  (forall req, exists rest,
      es_log (snd (ingest cfg uuid4_nth req w))
      = es_log w ++ CIndicesExists :: rest)
  /\ (forall req e w0,
        ensure_index cfg w = (Raise e, w0) ->
        ingest cfg uuid4_nth req w = (Raise e, w0))
  /\ (forall w0, ensure_index cfg w = (Ok tt, w0) -> es_index w0 <> None)
  /\ (create_index cfg w
      = match ensure_index cfg w with
        | (Ok _, w0) =>
            (Ok {| ci_ok := true; ci_index := INDEX_NAME cfg;
                   ci_dim := EMBEDDING_DIM cfg |}, w0)
        | (Raise e, w0) => (Raise e, w0)
        end)
  /\ (forall resp w0,
        create_index cfg w = (Ok resp, w0) -> es_index w0 <> None)
  /\ (startup cfg w
      = if next_fails w then (Raise RuntimeError, sent CPing w)
        else ensure_index cfg (sent CPing w))
  /\ (forall w0, startup cfg w = (Ok tt, w0) -> es_index w0 <> None)
  /\ (forall req,
        let w' := snd (search_lexical rank req w) in
        es_log w' = es_log w ++ [CSearch (lexical_body req)] /\
        es_index w' = es_index w)
  /\ (forall req qvec w1,
        embed cfg (query req) w = (Ok qvec, w1) ->
        let ws := snd (search_semantic cfg rank req w) in
        let wh := snd (search_hybrid cfg rank req w) in
        es_log ws = es_log w ++ [CSearch (semantic_body req qvec)] /\
        es_index ws = es_index w /\
        es_log wh = es_log w ++ [CSearch (hybrid_body req qvec)] /\
        es_index wh = es_index w)
  /\ (forall req,
        es_index w = None -> next_fails w = false ->
        fst (search_lexical rank req w) = Raise EsNotFoundError /\
        (forall qvec w1,
           embed cfg (query req) w = (Ok qvec, w1) ->
           fst (search_semantic cfg rank req w) = Raise EsNotFoundError /\
           fst (search_hybrid cfg rank req w) = Raise EsNotFoundError))
  /\ (forall w1 r w2,
        ensure_index cfg w = (Ok tt, w1) ->
        ensure_index cfg w1 = (r, w2) ->
        es_index w2 = es_index w1 /\ es_docs w2 = es_docs w1 /\
        es_visible w2 = es_visible w1 /\
        es_log w2 = es_log w1 ++ [CIndicesExists] /\
        (next_fails w1 = false -> r = Ok tt)).
Proof.
  destruct (schema_cases cfg uuid4_nth rank w)
    as (H1 & H2 & H3 & H4 & H5 & H6 & H7).
  split; [exact H1|]. split; [exact H2|]. split; [exact H3|].
  split; [apply create_index_run|].
  split.
  { intros resp w0. rewrite create_index_run.
    destruct (ensure_index cfg w) as [[u|e] w'] eqn:He; [|discriminate].
    intros H. inversion H; subst. destruct u.
    apply ensure_index_ok in He. tauto. }
  split; [apply startup_run|].
  split.
  { intros w0. rewrite startup_run.
    destruct (next_fails w); [discriminate|].
    intros H. apply ensure_index_ok in H. tauto. }
  split; [exact H4|]. split; [exact H5|].
  split; [|exact H7].
  intros req Hi Hf. split; [apply H6; assumption|].
  intros qvec w1 He.
  pose proof (embed_frame cfg (query req) w) as Hfr.
  rewrite search_semantic_run, search_hybrid_run, He. rewrite He in Hfr.
  simpl in Hfr. destruct Hfr as (Hff & Hfi & _).
  unfold search_answer, next_fails in *. simpl. rewrite Hff, Hfi, Hf, Hi.
  split; reflexivity.
Qed.

Lemma schema_ensured_by_ingest_witness :
  es_index (snd (ensure_index Sample.cfg_fake Sample.w_empty)) <> None
  /\ es_index (snd (ensure_index Sample.cfg_fake
                      (snd (ensure_index Sample.cfg_fake Sample.w_empty))))
     = es_index (snd (ensure_index Sample.cfg_fake Sample.w_empty))
  /\ fst (search_hybrid Sample.cfg_fake Sample.es_rank
            {| query := "hello"; top_k := 5 |} Sample.w_empty)
     = Raise EsNotFoundError.
Proof.
  pose proof (schema_ensured_by_ingest Sample.cfg_fake Sample.uuid4_nth
                Sample.es_rank Sample.w_empty)
    as (_ & _ & H3 & _ & _ & _ & _ & _ & _ & H10 & H11).
  pose proof (run_result (ensure_index Sample.cfg_fake Sample.w_empty)
                (Ok tt) eq_refl) as Hrun.
  split; [apply H3; exact Hrun|]. split.
  - eapply H11; [exact Hrun|]. apply run_result. reflexivity.
  - apply (proj2 (H10 {| query := "hello"; top_k := 5 |} eq_refl eq_refl)
             (fake_embed Sample.cfg_fake "hello") Sample.w_empty).
    apply embed_fake. discriminate.
Defined.

(** ** Further properties: startup and schema *)

(** Startup of the service: when the server does not answer the ping,
    startup fails with a runtime error after that single call, and the
    index is neither looked for nor created; when it answers, startup is
    the schema check on the server as the ping left it, so that a startup
    that succeeds leaves an index in place. *)
Theorem startup_ping_gate (cfg : Config) (w : World) :
  (next_fails w = true ->
     startup cfg w = (Raise RuntimeError, sent CPing w) /\
     es_log (snd (startup cfg w)) = es_log w ++ [CPing] /\
     es_index (snd (startup cfg w)) = es_index w)
  /\ (next_fails w = false ->
        startup cfg w = ensure_index cfg (sent CPing w))
  /\ (forall w', startup cfg w = (Ok tt, w') ->
                 es_index w' <> None /\ es_docs w' = es_docs w).
Proof.
  rewrite startup_run. split; [|split].
  - intros ->. auto.
  - intros ->. reflexivity.
  - intros w' H. destruct (next_fails w); [discriminate|].
    apply ensure_index_ok in H. destruct H as (Hi & Hd & _).
    split; [exact Hi|exact Hd].
Qed.

Lemma startup_ping_gate_witness :
  startup Sample.cfg_fake Sample.w_down
  = (Raise RuntimeError, sent CPing Sample.w_down)
  /\ es_index (snd (startup Sample.cfg_fake Sample.w_empty)) <> None.
Proof.
  split.
  - apply (proj1 (startup_ping_gate Sample.cfg_fake Sample.w_down)).
    reflexivity.
  - apply (proj2 (proj2 (startup_ping_gate Sample.cfg_fake Sample.w_empty))).
    apply run_result. reflexivity.
Defined.

(** The schema check never rewrites an index that is there: when it
    succeeds, the index has the mapping it had before, whatever the
    configured dimension is, and only when there was none the mapping of
    the service, with the configured dimension; the documents are left as
    they were, and the server is asked to create the index only when it
    said there was none. *)
Theorem ensure_index_keeps_mapping (cfg : Config) (w w' : World) :
  ensure_index cfg w = (Ok tt, w') ->
  es_index w' = Some (default (index_mapping cfg) (es_index w))
  /\ es_docs w' = es_docs w
  /\ es_log w' = es_log w ++
       match es_index w with
       | Some _ => [CIndicesExists]
       | None => [CIndicesExists; CIndicesCreate (index_mapping cfg)]
       end.
Proof.
  rewrite ensure_index_run.
  destruct (next_fails w); [discriminate|].
  destruct (es_index w) as [mp|] eqn:Hi.
  - intros H. inversion H; subst. simpl. rewrite Hi. auto.
  - cbv zeta. destruct (next_fails (sent CIndicesExists w)); [discriminate|].
    intros H. inversion H; subst. simpl.
    rewrite <- app_assoc. auto.
Qed.

Lemma ensure_index_keeps_mapping_witness :
  es_index (snd (ensure_index Sample.cfg_fake w_other_dim))
  = Some [("embedding"%string, FDenseVector 1536 true "cosine")].
Proof.
  apply (ensure_index_keeps_mapping Sample.cfg_fake w_other_dim).
  apply run_result. reflexivity.
Defined.

(** ** Further properties: the external strategy *)

(** Without a credential the external strategy fails with the HTTP 500
    error of the missing key before anything is sent: the world is as it
    was, so no request went to the embeddings service and none of its
    answers was used; and an update of a stored document then fails with
    that error and leaves the document as it was. *)
Theorem embed_without_key (cfg : Config) (t : string) (w : World) :
  EMBEDDING_PROVIDER cfg = "openai"%string ->
  OPENAI_API_KEY cfg = ""%string ->
  embed cfg t w = (Raise (HTTPException 500 MissingApiKey), w)
  /\ (forall id req cur,
        next_fails w = false -> es_index w <> None ->
        es_docs w !! id = Some cur ->
        update_document cfg id req w
        = (Raise (HTTPException 500 MissingApiKey), sent (CGet id) w)
        /\ es_docs (snd (update_document cfg id req w)) !! id = Some cur).
Proof.
  intros Hp Hk.
  assert (He : forall t' w0,
             embed cfg t' w0 = (Raise (HTTPException 500 MissingApiKey), w0)).
  { intros t' w0. unfold embed, openai_embed. rewrite Hp, Hk. reflexivity. }
  split; [apply He|].
  intros id req cur Hf Hi Hd.
  rewrite update_document_run, Hf, Hd.
  destruct (es_index w); [|contradiction].
  rewrite He. simpl. auto.
Qed.

Lemma embed_without_key_witness :
  embed cfg_no_key "hello" Sample.w_two
  = (Raise (HTTPException 500 MissingApiKey), Sample.w_two).
Proof.
  apply (embed_without_key cfg_no_key "hello" Sample.w_two); reflexivity.
Defined.

(** ** Further properties: delete *)

(** A successful delete, step by step. *)
Lemma delete_document_ok (id : string) (w w' : World)
    (resp : DeleteResponse) :
  delete_document id w = (Ok resp, w') ->
  is_Some (es_docs w !! id)
  /\ es_index w <> None
  /\ resp = {| del_ok := true; deleted_id := id |}
  /\ es_docs w' = delete id (es_docs w)
  /\ es_visible w' = es_docs w'
  /\ es_index w' = es_index w
  /\ es_log w' = es_log w ++ [CDelete id; CIndicesRefresh].
Proof.
  rewrite delete_document_run.
  destruct (next_fails w); [discriminate|].
  destruct (es_index w) as [mp|] eqn:Hi; [|discriminate].
  destruct (es_docs w !! id) as [cur|] eqn:Hd; [|discriminate].
  cbv zeta.
  match goal with |- context [next_fails ?x] => destruct (next_fails x) end;
    [discriminate|].
  intros H. inversion H; subst; clear H. simpl.
  split; [eauto|]. split; [discriminate|]. do 3 (split; [reflexivity|]).
  split; [exact Hi|]. rewrite <- app_assoc. reflexivity.
Qed.

(** A delete that succeeds removes the document of that id and no other,
    from the store and from what a search sees, and answers the id it was
    given; a second delete of the same id, straight after, answers
    NotFound whatever the state of the connection. *)
Theorem delete_removes_one (id : string) (w w' : World)
    (resp : DeleteResponse) :
  delete_document id w = (Ok resp, w') ->
  is_Some (es_docs w !! id)
  /\ deleted_id resp = id
  /\ es_docs w' = delete id (es_docs w)
  /\ es_docs w' !! id = None
  /\ (forall k, k <> id -> es_docs w' !! k = es_docs w !! k)
  /\ es_visible w' = es_docs w'
  /\ es_log w' = es_log w ++ [CDelete id; CIndicesRefresh]
  /\ fst (delete_document id w') = NotFound.
Proof.
  intros H. apply delete_document_ok in H.
  destruct H as (Hs & Hi & -> & Hd & Hv & Hi' & Hl).
  split; [exact Hs|]. split; [reflexivity|]. split; [exact Hd|].
  split; [rewrite Hd; apply lookup_delete_eq|].
  split; [intros k Hk; rewrite Hd; apply lookup_delete_ne; congruence|].
  split; [exact Hv|]. split; [exact Hl|].
  rewrite delete_document_run, Hd, lookup_delete_eq.
  destruct (next_fails w'); [reflexivity|].
  destruct (es_index w'); reflexivity.
Qed.

Lemma delete_removes_one_witness :
  es_docs (snd (delete_document "a" Sample.w_two)) !! "a"%string = None
  /\ es_docs (snd (delete_document "a" Sample.w_two)) !! "b"%string
     = Some Sample.doc_bare.
Proof.
  destruct (delete_removes_one "a" Sample.w_two _ _
              (run_result (delete_document "a" Sample.w_two)
                 (Ok {| del_ok := true; deleted_id := "a" |}) eq_refl))
    as (_ & _ & _ & Hgone & Hother & _).
  split; [exact Hgone|].
  rewrite Hother by discriminate. reflexivity.
Defined.

Lemma search_answer_ids (rank : gmap string Source -> SearchBody -> list Hit)
    (ty : string) (body : SearchBody) (w : World) (resp : SearchResponse)
    (id : string) :
  rank_within rank ->
  es_visible w !! id = None ->
  fst (search_answer rank ty body w) = Ok resp ->
  ~ In id (result_ids resp).
Proof.
  intros Hin Hv. unfold search_answer. simpl.
  destruct (next_fails w); [discriminate|].
  destruct (es_index w); [|discriminate].
  intros H. inversion H; subst; clear H. unfold result_ids. simpl.
  rewrite map_map. intros Hid. apply in_map_iff in Hid.
  destruct Hid as (h & Hh & Hhin). simpl in Hh. subst id.
  apply Hin in Hhin. rewrite Hv in Hhin. destruct Hhin as [? ?].
  discriminate.
Qed.

(** After a delete that succeeded, none of the three searches answers the
    deleted id, over a server that only answers documents a search can
    see. *)
Theorem deleted_id_not_found_by_search (cfg : Config)
    (rank : gmap string Source -> SearchBody -> list Hit)
    (id : string) (w w' : World) (dresp : DeleteResponse)
    (req : SearchRequest) (resp : SearchResponse) :
  rank_within rank ->
  delete_document id w = (Ok dresp, w') ->
  (fst (search_lexical rank req w') = Ok resp \/
   fst (search_semantic cfg rank req w') = Ok resp \/
   fst (search_hybrid cfg rank req w') = Ok resp) ->
  ~ In id (result_ids resp).
Proof.
  intros Hin Hdel Hs. apply delete_document_ok in Hdel.
  destruct Hdel as (_ & _ & _ & Hd & Hvis & _).
  assert (Hgone : es_visible w' !! id = None)
    by (rewrite Hvis, Hd; apply lookup_delete_eq).
  pose proof (embed_frame cfg (query req) w') as Hfr.
  rewrite search_lexical_run, search_semantic_run, search_hybrid_run in Hs.
  destruct (embed cfg (query req) w') as [[qvec|e] w1];
    simpl in Hfr; destruct Hfr as (_ & _ & _ & Hv & _).
  - rewrite <- Hv in Hgone.
    destruct Hs as [H|[H|H]];
      [rewrite Hv in Hgone| |]; eapply search_answer_ids; eauto.
  - destruct Hs as [H|[H|H]]; try discriminate.
    eapply search_answer_ids; eauto.
Qed.

Lemma sample_rank_within : rank_within Sample.es_rank.
Proof.
  intros docs body h Hh. unfold Sample.es_rank in Hh.
  apply list_elem_of_In in Hh. apply (subseteq_take _ _ h) in Hh.
  apply list_elem_of_In, in_map_iff in Hh.
  destruct Hh as ([k v] & <- & Hkv). simpl.
  apply list_elem_of_In, elem_of_map_to_list in Hkv. eauto.
Qed.

Lemma deleted_id_not_found_by_search_witness :
  ~ In "a"%string
      (result_ids
         {| sr_ok := true; sr_type := "lexical";
            results := [hit_result {| hit_id := "b";
                                      hit_source := Sample.doc_bare;
                                      hit_score := 1%Q |}] |}).
Proof.
  apply (deleted_id_not_found_by_search Sample.cfg_fake Sample.es_rank "a"
           Sample.w_two (snd (delete_document "a" Sample.w_two))
           {| del_ok := true; deleted_id := "a" |}
           {| query := "hello"; top_k := 5 |}).
  - exact sample_rank_within.
  - apply run_result. reflexivity.
  - left. vm_compute. reflexivity.
Defined.

(** ** Further properties: update *)

(** What an update leaves alone. A successful update that omits the
    metadata keeps the stored metadata (the empty map when the stored
    document had none), and one that omits the text keeps the text; it
    touches no other document; it reads the document back as written; and
    it sends three calls to the server: the get, the index, the refresh. *)
Theorem update_retains_and_frames (cfg : Config) (id : string)
    (req : UpdateRequest) (w w' : World) (resp : UpdateResponse) :
  update_document cfg id req w = (Ok resp, w') ->
  exists cur d,
    es_docs w !! id = Some cur
    /\ es_docs w' !! id = Some d
    /\ (metadatos req = None -> src_meta d = Some (default [] (src_meta cur)))
    /\ (text req = None -> src_text d = src_text cur)
    /\ (forall k, k <> id -> es_docs w' !! k = es_docs w !! k)
    /\ (next_fails w' = false -> fst (es_get id w') = Ok d)
    /\ es_visible w' = es_docs w'
    /\ es_log w' = es_log w ++ [CGet id; CIndex id d; CIndicesRefresh].
Proof.
  intros H. apply update_document_ok in H.
  destruct H as (cur & vec & w2 & _ & Hi & Hd & _ & _ & Hdocs & Hv & Hi' & Hl).
  cbv zeta in *.
  exists cur. eexists. split; [exact Hd|].
  split; [rewrite Hdocs; apply lookup_insert_eq|]. simpl.
  split; [intros Hm; unfold effective_meta; rewrite Hm; reflexivity|].
  split; [intros Ht; unfold effective_text; rewrite Ht; reflexivity|].
  split; [intros k Hk; rewrite Hdocs; apply lookup_insert_ne; congruence|].
  split.
  { intros Hf. rewrite es_get_run, Hf, Hi', Hdocs, lookup_insert_eq.
    destruct (es_index w); [reflexivity|contradiction]. }
  split; [exact Hv|exact Hl].
Qed.

Lemma update_retains_and_frames_witness :
  exists d,
    es_docs (snd (update_document Sample.cfg_fake "a"
                    {| text := Some "bye"%string; metadatos := None |}
                    Sample.w_two)) !! "a"%string = Some d
    /\ src_meta d = Some [("lang"%string, JStr "en")].
Proof.
  destruct (update_document_succeeds Sample.cfg_fake "a"
              {| text := Some "bye"%string; metadatos := None |}
              Sample.w_two Sample.doc_hello (index_mapping Sample.cfg_fake)
              eq_refl eq_refl eq_refl ltac:(discriminate)) as [w' Hw].
  destruct (update_retains_and_frames _ _ _ _ _ _ Hw)
    as (cur & d & Hc & Hd & Hm & _).
  assert (Ha : es_docs Sample.w_two !! "a"%string = Some Sample.doc_hello)
    by reflexivity.
  rewrite Ha in Hc. inversion Hc; subst cur.
  exists d. rewrite Hw. split; [exact Hd|]. apply Hm. reflexivity.
Defined.

(** Under the local strategy, an update that supplies neither text nor
    metadata writes back a document equal to the stored one whenever that
    one carries metadata and the local embedding of its text, as every
    document written by this service does: the store is left as it was. *)
Theorem update_nothing_is_identity (cfg : Config) (id : string)
    (w w' : World) (resp : UpdateResponse) (cur : Source) (m : json_obj) :
  EMBEDDING_PROVIDER cfg <> "openai"%string ->
  es_docs w !! id = Some cur ->
  src_meta cur = Some m ->
  src_embedding cur = fake_embed cfg (src_text cur) ->
  update_document cfg id {| text := None; metadatos := None |} w
  = (Ok resp, w') ->
  es_docs w' = es_docs w /\ upd_text resp = src_text cur.
Proof.
  intros Hp Hd Hm He H. apply update_document_ok in H.
  destruct H as (cur' & vec & w2 & _ & _ & Hd' & Hemb & -> & Hdocs & _).
  rewrite Hd in Hd'. inversion Hd'; subst cur'.
  unfold effective_text, effective_meta in *. simpl in *.
  rewrite embed_fake in Hemb by exact Hp. inversion Hemb; subst vec.
  split; [|reflexivity].
  rewrite Hdocs, Hm, <- He. simpl.
  apply insert_id. rewrite Hd. f_equal.
  destruct cur; simpl in *. congruence.
Qed.

Lemma update_nothing_is_identity_witness :
  es_docs (snd (update_document Sample.cfg_fake "a"
                  {| text := None; metadatos := None |} Sample.w_two))
  = es_docs Sample.w_two.
Proof.
  destruct (update_document_succeeds Sample.cfg_fake "a"
              {| text := None; metadatos := None |}
              Sample.w_two Sample.doc_hello (index_mapping Sample.cfg_fake)
              eq_refl eq_refl eq_refl ltac:(discriminate)) as [w' Hw].
  rewrite Hw.
  apply (update_nothing_is_identity Sample.cfg_fake "a" Sample.w_two w' _
           Sample.doc_hello [("lang"%string, JStr "en")]
           ltac:(discriminate) eq_refl eq_refl eq_refl Hw).
Defined.

(** An update or a delete that answers NotFound has done nothing but its
    first call: the documents, what a search sees and the index are as
    they were, no refresh was sent, and the update has not asked for an
    embedding. *)
Theorem not_found_has_no_effect (cfg : Config) (id : string)
    (req : UpdateRequest) (w : World) :
  (fst (delete_document id w) = NotFound ->
     snd (delete_document id w) = sent (CDelete id) w)
  /\ (fst (update_document cfg id req w) = NotFound ->
        snd (update_document cfg id req w) = sent (CGet id) w)
  /\ (forall c, es_docs (sent c w) = es_docs w /\
                es_visible (sent c w) = es_visible w /\
                es_index (sent c w) = es_index w /\
                openai_log (sent c w) = openai_log w /\
                es_log (sent c w) = es_log w ++ [c]).
Proof.
  split; [|split].
  - rewrite delete_document_run.
    destruct (next_fails w); [reflexivity|].
    destruct (es_index w); [|reflexivity].
    destruct (es_docs w !! id); [|reflexivity]. cbv zeta.
    match goal with |- context [next_fails ?x] => destruct (next_fails x) end;
      discriminate.
  - rewrite update_document_run.
    destruct (next_fails w); [reflexivity|].
    destruct (es_index w); [|reflexivity].
    destruct (es_docs w !! id) as [cur|]; [|reflexivity].
    pose proof (embed_raises cfg (effective_text req cur) (sent (CGet id) w))
      as Hra.
    destruct (embed cfg (effective_text req cur) (sent (CGet id) w))
      as [[vec|e] w2].
    + cbv zeta. destruct (next_fails w2); [discriminate|].
      match goal with |- context [next_fails ?x] => destruct (next_fails x) end;
        discriminate.
    + simpl. intros H.
      destruct (Hra w2 e eq_refl) as [->|[d ->]]; discriminate.
  - intros c. repeat split; reflexivity.
Qed.

Lemma not_found_has_no_effect_witness :
  snd (delete_document "zz" Sample.w_two) = sent (CDelete "zz") Sample.w_two.
Proof.
  apply (proj1 (not_found_has_no_effect Sample.cfg_fake "zz"
                  {| text := None; metadatos := None |} Sample.w_two)).
  reflexivity.
Defined.

(** ** Further properties: search *)

(** The three searches only read: whatever they answer, the documents,
    what a search sees, the index and the id supply are as before; the
    lexical search asks for no embedding; and a server that cannot be
    reached makes the lexical search raise the connection error, not
    answer an empty list. *)
Theorem search_reads_only (cfg : Config)
    (rank : gmap string Source -> SearchBody -> list Hit)
    (req : SearchRequest) (w : World) :
  same_store w (snd (search_lexical rank req w))
  /\ same_store w (snd (search_semantic cfg rank req w))
  /\ same_store w (snd (search_hybrid cfg rank req w))
  /\ openai_log (snd (search_lexical rank req w)) = openai_log w
  /\ (next_fails w = true ->
      fst (search_lexical rank req w) = Raise EsConnectionError).
Proof.
  pose proof (embed_frame cfg (query req) w) as Hfr.
  rewrite search_lexical_run, search_semantic_run, search_hybrid_run.
  unfold same_store.
  destruct (embed cfg (query req) w) as [[qvec|e] w1]; simpl in *;
    destruct Hfr as (_ & Hi & Hd & Hv & _ & Hu);
    repeat split; auto; intros ->; reflexivity.
Qed.

Lemma search_reads_only_witness :
  fst (search_lexical Sample.es_rank {| query := "hello"; top_k := 5 |}
         Sample.w_down) = Raise EsConnectionError.
Proof.
  apply (search_reads_only Sample.cfg_fake Sample.es_rank
           {| query := "hello"; top_k := 5 |} Sample.w_down).
  reflexivity.
Defined.

(** Lexical and hybrid search: the results are the hits the server
    answers to the request, one result per hit and in the same order,
    each with the id, the text and the score of its hit and with its
    metadata, the empty map when the stored document has none; over a
    server that answers at most [size] hits these are at most topK
    results, none for a topK of zero or less. *)
Theorem lexical_and_hybrid_results (cfg : Config)
    (rank : gmap string Source -> SearchBody -> list Hit)
    (req : SearchRequest) (w : World) (resp : SearchResponse) :
  (forall docs body,
     (length (rank docs body) <= Z.to_nat (sb_size body))%nat) ->
  (fst (search_lexical rank req w) = Ok resp ->
     let hits := rank (es_visible w) (lexical_body req) in
     Forall2 result_of_hit (results resp) hits /\
     map res_id (results resp) = map hit_id hits /\
     Z.of_nat (length (results resp)) <= Z.max 0 (top_k req))
  /\ (forall qvec w1,
        embed cfg (query req) w = (Ok qvec, w1) ->
        fst (search_hybrid cfg rank req w) = Ok resp ->
        let hits := rank (es_visible w) (hybrid_body req qvec) in
        Forall2 result_of_hit (results resp) hits /\
        map res_id (results resp) = map hit_id hits /\
        Z.of_nat (length (results resp)) <= Z.max 0 (top_k req)).
Proof.
  intros Hsize.
  assert (Hans : forall ty body w0,
             sb_size body = top_k req ->
             fst (search_answer rank ty body w0) = Ok resp ->
             Forall2 result_of_hit (results resp) (rank (es_visible w0) body) /\
             map res_id (results resp) = map hit_id (rank (es_visible w0) body) /\
             Z.of_nat (length (results resp)) <= Z.max 0 (top_k req)).
  { intros ty body w0 Hb. unfold search_answer. simpl.
    destruct (next_fails w0); [discriminate|].
    destruct (es_index w0); [|discriminate].
    intros H. inversion H; subst resp; clear H. simpl.
    split; [apply hit_result_ties|].
    split; [rewrite map_map; reflexivity|].
    rewrite length_map.
    pose proof (Hsize (es_visible w0) body) as Hle. rewrite Hb in Hle. lia. }
  split.
  - rewrite search_lexical_run. intros H. cbv zeta.
    apply (Hans "lexical"%string (lexical_body req) w eq_refl H).
  - intros qvec w1 He. rewrite search_hybrid_run, He. intros H. cbv zeta.
    pose proof (embed_frame cfg (query req) w) as Hfr. rewrite He in Hfr.
    simpl in Hfr. destruct Hfr as (_ & _ & _ & Hv & _).
    rewrite <- Hv.
    apply (Hans "hybrid"%string (hybrid_body req qvec) w1 eq_refl H).
Qed.

Lemma lexical_and_hybrid_results_witness :
  map res_id [hit_result {| hit_id := "a"; hit_source := Sample.doc_hello;
                            hit_score := 1%Q |}]
  = map hit_id (Sample.es_rank (es_visible Sample.w_two)
                  (lexical_body {| query := "hello"; top_k := 1 |})).
Proof.
  apply (proj1 (lexical_and_hybrid_results Sample.cfg_fake Sample.es_rank
                  {| query := "hello"; top_k := 1 |} Sample.w_two
                  {| sr_ok := true; sr_type := "lexical";
                     results := [hit_result {| hit_id := "a";
                                               hit_source := Sample.doc_hello;
                                               hit_score := 1%Q |}] |}
                  sample_rank_size)).
  vm_compute. reflexivity.
Defined.

(** ** Further properties: the local embedding *)

(** The local embedding repeats itself: a SHA-256 digest has room for
    eight 4-byte chunks, so component [i + 8] is component [i], and a
    vector of any dimension carries at most eight different values. For a
    dimension of zero or less the vector is empty. *)
Theorem fake_embed_period_eight (cfg : Config) (t : string) :
  (forall i, (i + 8 < Z.to_nat (EMBEDDING_DIM cfg))%nat ->
             nth (i + 8) (fake_embed cfg t) 0%Q = nth i (fake_embed cfg t) 0%Q)
  /\ (EMBEDDING_DIM cfg <= 0 -> fake_embed cfg t = []).
Proof.
  split.
  - intros i Hi. rewrite fake_embed_eq_ref. unfold ref_embed.
    set (h := SHA256.digest (encode_utf8 t)).
    set (D := EMBEDDING_DIM cfg) in *.
    assert (Hh : length h = 32%nat) by apply digest_length.
    assert (Hn : forall j, (j < Z.to_nat D)%nat ->
               nth j (map (ref_component (ref_stretch h D))
                          (seq 0 (Z.to_nat D))) 0%Q
               = ref_component (ref_stretch h D) j).
    { intros j Hj.
      rewrite (nth_indep _ 0%Q (ref_component (ref_stretch h D) 0%nat))
        by (rewrite length_map, length_seq; exact Hj).
      rewrite (map_nth (ref_component (ref_stretch h D))), seq_nth by exact Hj.
      reflexivity. }
    rewrite !Hn by lia.
    unfold ref_component, ref_stretch. rewrite Hh.
    set (kr := Z.to_nat ((4 * D + Z.of_nat 32 - 1) / Z.of_nat 32)).
    assert (Hkr : (4 * (i + 8) + 4 <= kr * 32)%nat).
    { subst kr. change (Z.of_nat 32) with 32.
      pose proof (Z.div_mod (4 * D + 32 - 1) 32 ltac:(lia)).
      pose proof (Z.mod_pos_bound (4 * D + 32 - 1) 32 ltac:(lia)).
      lia. }
    destruct (chunk_repeat h kr (i + 8) Hh Hkr) as (-> & -> & -> & ->).
    destruct (chunk_repeat h kr i Hh ltac:(lia)) as (-> & -> & -> & ->).
    replace (4 * (i + 8))%nat with (4 * i + 1 * 32)%nat by lia.
    replace (4 * i + 1 * 32 + 1)%nat with (4 * i + 1 + 1 * 32)%nat by lia.
    replace (4 * i + 1 * 32 + 2)%nat with (4 * i + 2 + 1 * 32)%nat by lia.
    replace (4 * i + 1 * 32 + 3)%nat with (4 * i + 3 + 1 * 32)%nat by lia.
    rewrite !Nat.Div0.mod_add. reflexivity.
  - intros HD. unfold fake_embed, range.
    replace (Z.to_nat (EMBEDDING_DIM cfg)) with 0%nat by lia. reflexivity.
Qed.

Lemma fake_embed_period_eight_witness :
  nth 8 (fake_embed Sample.cfg_fake "hello world") 0%Q
  = nth 0 (fake_embed Sample.cfg_fake "hello world") 0%Q.
Proof.
  apply (proj1 (fake_embed_period_eight Sample.cfg_fake "hello world") 0%nat).
  simpl. lia.
Defined.

(** ** Further properties: ingest *)

Lemma store_all_elem (l : list string) :
  forall (docs : list Source) (m : gmap string Source) (id : string),
  length docs = length l -> id ∈ l ->
  exists i d, l !! i = Some id /\ docs !! i = Some d /\
              store_all l docs m !! id = Some d.
Proof.
  induction l as [|id0 l IH]; intros docs m id Hlen Hin.
  - apply elem_of_nil in Hin. contradiction.
  - destruct docs as [|d0 docs]; [discriminate|]. simpl in Hlen.
    change (store_all (id0 :: l) (d0 :: docs) m)
      with (store_all l docs (<[id0 := d0]> m)).
    destruct (decide (id ∈ l)) as [Hl|Hl].
    + destruct (IH docs (<[id0 := d0]> m) id ltac:(lia) Hl)
        as (i & d & Hi & Hd & Hs).
      exists (S i), d. auto.
    + apply elem_of_cons in Hin. destruct Hin as [->|Hin]; [|contradiction].
      exists 0%nat, d0. split; [reflexivity|]. split; [reflexivity|].
      rewrite store_all_notin by exact Hl. apply lookup_insert_eq.
Qed.

(** After a successful ingest every returned id holds a document of the
    batch: for some position i at which that id was returned, the i-th
    text, the metadata of the call and the i-th of the vectors that
    [embed] returns when called on the texts in turn from the state of
    the call; and every document under another id is as it was. This
    needs no assumption on the ids drawn. *)
Theorem ingest_stores_only_batch (cfg : Config) (uuid4_nth : nat -> string)
    (req : IngestRequest) (w w' : World) (resp : IngestResponse) :
  ingest cfg uuid4_nth req w = (Ok resp, w') ->
  exists vecs,
    fst (embed_each cfg (frases req) w) = Ok vecs
    /\ (forall id, id ∈ ids resp ->
         exists i t v,
           ids resp !! i = Some id /\
           frases req !! i = Some t /\
           vecs !! i = Some v /\
           es_docs w' !! id
           = Some (new_doc (or_empty (ingest_metadatos req)) t v))
    /\ (forall k, k ∉ ids resp -> es_docs w' !! k = es_docs w !! k).
Proof.
  intros H. rewrite ingest_run in H.
  pose proof (ensure_index_replies cfg w) as Hrep.
  destruct (ensure_index cfg w) as [[u|e] w0] eqn:He; [|discriminate].
  destruct u. simpl in Hrep. apply ensure_index_ok in He.
  destruct He as (_ & Hd0 & _ & Hu0 & _).
  set (meta := or_empty (ingest_metadatos req)) in *.
  destruct (ingest_loop cfg uuid4_nth meta (frases req) [] w0)
    as [[l|e] w1] eqn:Hloop; [|discriminate].
  apply ingest_loop_exact in Hloop.
  destruct Hloop as (vecs & Hfe & Hlv & Hl & Hd & _).
  cbv zeta in *. simpl in Hl. rewrite Hd0 in Hd.
  rewrite (embed_each_depends_on_replies cfg (frases req) w0 w Hrep) in Hfe.
  rewrite es_indices_refresh_run in H.
  destruct (next_fails w1); [discriminate|].
  destruct (es_index w1); [|discriminate].
  inversion H; subst resp w'; clear H. simpl.
  rewrite <- Hl in Hd.
  assert (Hlen : length l = length (frases req))
    by (subst l; rewrite length_map, length_seq; reflexivity).
  exists vecs. split; [exact Hfe|]. split.
  - intros id Hid.
    destruct (store_all_elem l
                (zip_with (new_doc meta) (frases req) vecs) (es_docs w) id)
      as (i & d & Hli & Hi & Hs); [|exact Hid|].
    { rewrite length_zip_with. lia. }
    rewrite lookup_zip_with in Hi.
    destruct (frases req !! i) as [t|] eqn:Ht; [|discriminate].
    simpl in Hi. destruct (vecs !! i) as [v|] eqn:Hv; [|discriminate].
    simpl in Hi. inversion Hi; subst d.
    exists i, t, v. rewrite Hd. auto.
  - intros k Hk. rewrite Hd. apply store_all_notin. exact Hk.
Qed.

Lemma ingest_stores_only_batch_witness :
  es_docs (snd (ingest Sample.cfg_fake Sample.uuid4_nth
                  {| frases := ["hello world"; "bare"]%string;
                     ingest_metadatos := Some [("lang"%string, JStr "en")] |}
                  Sample.w_empty)) !! "other"%string = None.
Proof.
  pose proof (run_result _ _ sample_ingest_result) as Hrun.
  destruct (ingest_stores_only_batch _ _ _ _ _ _ Hrun)
    as (vecs & _ & _ & Hframe).
  rewrite Hframe; [reflexivity|]. simpl.
  intros H. apply elem_of_cons in H. destruct H as [H|H]; [discriminate|].
  apply list_elem_of_singleton in H. discriminate.
Defined.

Lemma embed_calls_app (cfg : Config) (a b : list string) :
  embed_calls cfg (a ++ b) = embed_calls cfg a ++ embed_calls cfg b.
Proof.
  unfold embed_calls.
  destruct (String.eqb (EMBEDDING_PROVIDER cfg) "openai");
    [apply map_app|reflexivity].
Qed.

Lemma embed_ok_calls (cfg : Config) (t : string) (w w1 : World)
    (v : list float) :
  embed cfg t w = (Ok v, w1) ->
  openai_log w1 = openai_log w ++ embed_calls cfg [t].
Proof.
  unfold embed, embed_calls.
  destruct (String.eqb (EMBEDDING_PROVIDER cfg) "openai").
  - intros H. apply openai_embed_ok in H. tauto.
  - intros H. inversion H; subst. rewrite app_nil_r. reflexivity.
Qed.

Lemma ingest_one_calls (cfg : Config) (uuid4_nth : nat -> string)
    (meta : json_obj) (t : string) (w w' : World) (id : string) :
  ingest_one cfg uuid4_nth meta t w = (Ok id, w') ->
  openai_log w' = openai_log w ++ embed_calls cfg [t].
Proof.
  rewrite ingest_one_run.
  destruct (embed cfg t (set_uuid_drawn (S (uuid_drawn w)) w))
    as [[vec|e] w1] eqn:He; [|discriminate].
  apply embed_ok_calls in He. simpl in He. cbv zeta.
  destruct (next_fails w1); [discriminate|].
  intros H. inversion H; subst; clear H.
  destruct (es_index w1); simpl; exact He.
Qed.

Lemma ingest_loop_calls (cfg : Config) (uuid4_nth : nat -> string)
    (meta : json_obj) (ts : list string) :
  forall acc w w' l,
    ingest_loop cfg uuid4_nth meta ts acc w = (Ok l, w') ->
    openai_log w' = openai_log w ++ embed_calls cfg ts.
Proof.
  induction ts as [|t ts IH]; intros acc w w' l H; simpl in H.
  - inversion H; subst. unfold embed_calls.
    destruct (String.eqb (EMBEDDING_PROVIDER cfg) "openai");
      simpl; rewrite app_nil_r; reflexivity.
  - unfold bind in H.
    destruct (ingest_one cfg uuid4_nth meta t w) as [[id|e] w1] eqn:H1;
      [|discriminate].
    apply ingest_one_calls in H1. apply IH in H.
    rewrite H, H1, <- app_assoc, <- embed_calls_app. reflexivity.
Qed.

(** A successful ingest under the external strategy asks the embeddings
    service once per text, in input order, each time for that one text
    with the configured model; under the local strategy it asks nothing
    of it. *)
Theorem ingest_embeds_one_by_one (cfg : Config) (uuid4_nth : nat -> string)
    (req : IngestRequest) (w w' : World) (resp : IngestResponse) :
  ingest cfg uuid4_nth req w = (Ok resp, w') ->
  openai_log w' = openai_log w ++ embed_calls cfg (frases req)
  /\ (EMBEDDING_PROVIDER cfg = "openai"%string ->
      openai_log w'
      = openai_log w ++ map (fun t => (OPENAI_EMBED_MODEL cfg, t)) (frases req))
  /\ (EMBEDDING_PROVIDER cfg <> "openai"%string ->
      openai_log w' = openai_log w).
Proof.
  intros H. rewrite ingest_run in H.
  assert (Hen : openai_log (snd (ensure_index cfg w)) = openai_log w).
  { rewrite ensure_index_run.
    destruct (next_fails w); [reflexivity|].
    destruct (es_index w); [reflexivity|]. cbv zeta.
    destruct (next_fails (sent CIndicesExists w)); reflexivity. }
  destruct (ensure_index cfg w) as [[u|e] w0]; [|discriminate].
  simpl in Hen.
  destruct (ingest_loop cfg uuid4_nth (or_empty (ingest_metadatos req))
              (frases req) [] w0) as [[l|e] w1] eqn:Hloop; [|discriminate].
  apply ingest_loop_calls in Hloop.
  rewrite es_indices_refresh_run in H.
  destruct (next_fails w1); [discriminate|].
  destruct (es_index w1); [|discriminate].
  inversion H; subst; clear H. simpl. rewrite Hloop, Hen.
  split; [reflexivity|]. unfold embed_calls. split.
  - intros ->. reflexivity.
  - intros Hp.
    destruct (String.eqb_spec (EMBEDDING_PROVIDER cfg) "openai");
      [contradiction|apply app_nil_r].
Qed.

Lemma sample_openai_ingest :
  fst (ingest Sample.cfg_openai Sample.uuid4_nth
         {| frases := ["one"; "two"]%string; ingest_metadatos := None |}
         w_openai)
  = Ok {| ing_ok := true; inserted_count := 2; ids := ["x"; "xx"]%string |}.
Proof. lazy. reflexivity. Qed.

Lemma ingest_embeds_one_by_one_witness :
  openai_log (snd (ingest Sample.cfg_openai Sample.uuid4_nth
                     {| frases := ["one"; "two"]%string;
                        ingest_metadatos := None |} w_openai))
  = [("text-embedding-3-small", "one"); ("text-embedding-3-small", "two")]%string.
Proof.
  pose proof (run_result _ _ sample_openai_ingest) as Hrun.
  destruct (ingest_embeds_one_by_one _ _ _ _ _ _ Hrun) as (_ & Ho & _).
  apply Ho. reflexivity.
Defined.

Lemma index_calls_no_refresh (l : list string) (docs : list Source) :
  ~ In CIndicesRefresh (zip_with CIndex l docs).
Proof.
  revert docs. induction l as [|id l IH]; intros docs; [intros []|].
  destruct docs as [|d docs]; [intros []|].
  simpl. intros [H|H]; [discriminate|]. exact (IH docs H).
Qed.

Lemma ingest_one_raises_log (cfg : Config) (uuid4_nth : nat -> string)
    (meta : json_obj) (t : string) (w w' : World) (e : exn) :
  ingest_one cfg uuid4_nth meta t w = (Raise e, w') ->
  es_log w' = es_log w \/
  exists id doc, es_log w' = es_log w ++ [CIndex id doc].
Proof.
  rewrite ingest_one_run.
  pose proof (embed_frame cfg t (set_uuid_drawn (S (uuid_drawn w)) w)) as Hfr.
  destruct (embed cfg t (set_uuid_drawn (S (uuid_drawn w)) w))
    as [[vec|e'] w1]; simpl in Hfr; destruct Hfr as (_ & _ & _ & _ & Hl & _).
  - cbv zeta. destruct (next_fails w1); [|discriminate].
    intros H. inversion H; subst; clear H. right.
    eexists _, _. simpl. rewrite Hl. reflexivity.
  - intros H. inversion H; subst; clear H. left. exact Hl.
Qed.

(** A batch that fails at one of its texts is not made visible: the
    documents of the earlier texts are stored, but the call ends without
    a refresh request, and a search sees what it saw before the call. *)
Theorem failed_ingest_skips_refresh (cfg : Config)
    (uuid4_nth : nat -> string) (req : IngestRequest)
    (pre post : list string) (t : string) (l : list string) (e : exn)
    (w w0 w1 w2 : World) :
  let meta := or_empty (ingest_metadatos req) in
  frases req = pre ++ t :: post ->
  ensure_index cfg w = (Ok tt, w0) ->
  ingest_loop cfg uuid4_nth meta pre [] w0 = (Ok l, w1) ->
  ingest_one cfg uuid4_nth meta t w1 = (Raise e, w2) ->
  snd (ingest cfg uuid4_nth req w) = w2
  /\ es_visible w2 = es_visible w
  /\ exists calls, es_log w2 = es_log w ++ calls
                   /\ ~ In CIndicesRefresh calls.
Proof.
  intros meta Hts He Hloop Hone.
  split.
  { rewrite ingest_run, He, Hts. fold meta. rewrite ingest_loop_app, Hloop.
    simpl. unfold bind. rewrite Hone. reflexivity. }
  apply ensure_index_ok in He.
  destruct He as (_ & _ & Hv0 & _ & _ & Hl0).
  apply ingest_loop_ok in Hloop.
  destruct Hloop as (vecs & _ & _ & _ & Hl1 & _ & Hv1 & _).
  pose proof (ingest_one_raises_log _ _ _ _ _ _ _ Hone) as Hl2.
  apply ingest_one_raises in Hone.
  destruct Hone as (_ & _ & Hv2 & _).
  split; [congruence|].
  cbv zeta in Hl1.
  set (ix := zip_with CIndex
               (map uuid4_nth (seq (uuid_drawn w0) (length pre)))
               (zip_with (new_doc meta) pre vecs)) in *.
  assert (Hix : ~ In CIndicesRefresh ix) by apply index_calls_no_refresh.
  destruct Hl0 as [Hl0|Hl0]; destruct Hl2 as [Hl2|(id & doc & Hl2)];
    rewrite Hl2, Hl1, Hl0; rewrite <- ?app_assoc;
    eexists; (split; [reflexivity|]);
    rewrite ?in_app_iff; simpl; intros H;
    repeat match goal with
           | H : _ \/ _ |- _ => destruct H
           | H : In _ (_ ++ _) |- _ => apply in_app_iff in H
           | H : In _ (_ :: _) |- _ => simpl in H
           end; try discriminate; try contradiction.
Qed.

Lemma failed_ingest_skips_refresh_witness :
  es_visible (snd (ingest Sample.cfg_fake Sample.uuid4_nth sample_batch
                     w_fourth_fails)) = ∅.
Proof.
  destruct (failed_ingest_skips_refresh Sample.cfg_fake Sample.uuid4_nth
              sample_batch ["hello world"%string] ["later"%string] "bare"
              ["x"%string] EsConnectionError
              w_fourth_fails w_after_ensure w_after_first w_after_second
              eq_refl
              (run_result _ _ sample_batch_ensure)
              (run_result _ _ sample_batch_first)
              (run_result _ _ sample_batch_second))
    as (Hr & Hv & _).
  rewrite Hr, Hv. reflexivity.
Defined.

(** ** Further properties: embedding calls of update and search *)

(** Every successful update asks for exactly one embedding, of the text
    it writes: under the external strategy the embeddings service
    receives one request, for that text with the configured model, also
    when the update supplied no text; under the local strategy it
    receives none. *)
Theorem update_embeds_once (cfg : Config) (id : string) (req : UpdateRequest)
    (w w' : World) (resp : UpdateResponse) :
  update_document cfg id req w = (Ok resp, w') ->
  openai_log w' = openai_log w ++ embed_calls cfg [upd_text resp]
  /\ (EMBEDDING_PROVIDER cfg = "openai"%string ->
      openai_log w' = openai_log w ++ [(OPENAI_EMBED_MODEL cfg, upd_text resp)])
  /\ (text req = None ->
      exists cur, es_docs w !! id = Some cur /\ upd_text resp = src_text cur).
Proof.
  intros H.
  assert (Hlog : openai_log w' = openai_log w ++ embed_calls cfg [upd_text resp]
                 /\ exists cur, es_docs w !! id = Some cur /\
                                upd_text resp = effective_text req cur).
  { rewrite update_document_run in H.
    destruct (next_fails w); [discriminate|].
    destruct (es_index w); [|discriminate].
    destruct (es_docs w !! id) as [cur|]; [|discriminate].
    destruct (embed cfg (effective_text req cur) (sent (CGet id) w))
      as [[vec|e] w2] eqn:He; [|discriminate].
    apply embed_ok_calls in He. simpl in He. cbv zeta in H.
    destruct (next_fails w2); [discriminate|].
    match type of H with
    | context [next_fails ?x] => destruct (next_fails x)
    end; [discriminate|].
    inversion H; subst; clear H. simpl. split; [exact He|]. eauto. }
  destruct Hlog as (Hlog & cur & Hc & Ht).
  split; [exact Hlog|]. split.
  - intros Hp. rewrite Hlog. unfold embed_calls. rewrite Hp. reflexivity.
  - intros Hn. exists cur. split; [exact Hc|].
    rewrite Ht. unfold effective_text. rewrite Hn. reflexivity.
Qed.

Lemma sample_openai_update :
  fst (update_document Sample.cfg_openai "b"
         {| text := None; metadatos := Some [] |} w_openai_two)
  = Ok {| upd_ok := true; upd_id := "b"; upd_text := "bare" |}.
Proof. lazy. reflexivity. Qed.

Lemma update_embeds_once_witness :
  openai_log (snd (update_document Sample.cfg_openai "b"
                     {| text := None; metadatos := Some [] |} w_openai_two))
  = [("text-embedding-3-small", "bare")]%string.
Proof.
  pose proof (run_result _ _ sample_openai_update) as Hrun.
  destruct (update_embeds_once _ _ _ _ _ _ Hrun) as (_ & Ho & _).
  apply Ho. reflexivity.
Defined.

(** When the query cannot be embedded, semantic and hybrid search fail
    with the error of the embedding and send nothing to the server; the
    lexical search of the same request is sent all the same, as it needs
    no embedding. *)
Theorem search_stops_at_failed_embedding (cfg : Config)
    (rank : gmap string Source -> SearchBody -> list Hit)
    (req : SearchRequest) (w w1 : World) (e : exn) :
  embed cfg (query req) w = (Raise e, w1) ->
  search_semantic cfg rank req w = (Raise e, w1)
  /\ search_hybrid cfg rank req w = (Raise e, w1)
  /\ es_log w1 = es_log w
  /\ es_log (snd (search_lexical rank req w))
     = es_log w ++ [CSearch (lexical_body req)].
Proof.
  intros He.
  pose proof (embed_frame cfg (query req) w) as Hfr.
  rewrite search_semantic_run, search_hybrid_run, search_lexical_run, He in *.
  simpl in Hfr. destruct Hfr as (_ & _ & _ & _ & Hl & _).
  repeat split; auto.
Qed.

Lemma search_stops_at_failed_embedding_witness :
  search_semantic cfg_no_key Sample.es_rank
    {| query := "hello"; top_k := 5 |} Sample.w_two
  = (Raise (HTTPException 500 MissingApiKey), Sample.w_two).
Proof.
  apply (search_stops_at_failed_embedding cfg_no_key Sample.es_rank
           {| query := "hello"; top_k := 5 |} Sample.w_two Sample.w_two).
  reflexivity.
Defined.
